(** * carmac_tools.file_tools: normalisation, scoring and best-match selection

    A shallow embedding of the string-matching core of
    [src/carmac_tools/file_tools.py]:

    - [remove_extension], [is_valid_filename], [normalize_string];
    - [get_score], the dispatch over the three similarity libraries;
    - [string_matching], the double loop that selects, for each base name,
      the best target;
    - [match_names_to_filenames], which loads the two lists from files, sorts
      the records and writes the results out.

    Python [str] values are modelled as [string] over the code points
    U+0000..U+00FF, on which [str.lower] is a character-wise map.  Scores
    are Python floats (or ints); only their order is used by the code, so
    they are modelled as rationals [Q]. *)

From Stdlib Require Import String Ascii List Bool Arith ZArith QArith Lia.
From Stdlib Require Import Qround Morphisms.
From Stdlib Require Permutation Sorted.
From Equations Require Import Equations.
Import ListNotations.

Local Close Scope Q_scope.
Local Open Scope nat_scope.
Local Open Scope list_scope.
Local Open Scope string_scope.

(** ** Strings *)

Module Str.

(** [s.lower()] on one code point of the Latin-1 range: the ASCII capitals
    and the capitals U+00C0..U+00DE (without the multiplication sign
    U+00D7) move up by 32. *)
Definition lower_char (c : ascii) : ascii :=
  let n := nat_of_ascii c in
  if ((65 <=? n)%nat && (n <=? 90)%nat)
     || ((192 <=? n)%nat && (n <=? 222)%nat && negb (n =? 215)%nat)
  then ascii_of_nat (n + 32)
  else c.

Fixpoint lower (s : string) : string :=
  match s with
  | EmptyString => EmptyString
  | String c s' => String (lower_char c) (lower s')
  end.

(** [c in s] for a one-character [c]. *)
Fixpoint mem (c : ascii) (s : string) : bool :=
  match s with
  | EmptyString => false
  | String d s' => Ascii.eqb d c || mem c s'
  end.

(** Propositional membership of a character. *)
Fixpoint In (c : ascii) (s : string) : Prop :=
  match s with
  | EmptyString => False
  | String d s' => d = c \/ In c s'
  end.

Fixpoint any (p : ascii -> bool) (s : string) : bool :=
  match s with
  | EmptyString => false
  | String d s' => p d || any p s'
  end.

Fixpoint filter (p : ascii -> bool) (s : string) : string :=
  match s with
  | EmptyString => EmptyString
  | String d s' => if p d then String d (filter p s') else filter p s'
  end.

(** [s[n:]] *)
Fixpoint drop (n : nat) (s : string) : string :=
  match n, s with
  | O, _ => s
  | S _, EmptyString => EmptyString
  | S n', String _ s' => drop n' s'
  end.

(** [s[:n]] *)
Fixpoint take (n : nat) (s : string) : string :=
  match n, s with
  | O, _ => EmptyString
  | S _, EmptyString => EmptyString
  | S n', String c s' => String c (take n' s')
  end.

(** Length of the longest prefix of [s] whose characters all satisfy [p]. *)
Fixpoint span_len (p : ascii -> bool) (s : string) : nat :=
  match s with
  | EmptyString => O
  | String d s' => if p d then S (span_len p s') else O
  end.

(** [s.rfind(c)]: the highest index of [c] in [s], [-1] when absent. *)
Fixpoint rfind (c : ascii) (s : string) : Z :=
  match s with
  | EmptyString => (-1)%Z
  | String d s' =>
      let r := rfind c s' in
      if (0 <=? r)%Z then (r + 1)%Z
      else if Ascii.eqb d c then 0%Z else (-1)%Z
  end.

(** [s.split(sep)] for a one-character separator. *)
Fixpoint split (sep : ascii) (s : string) : list string :=
  match s with
  | EmptyString => [EmptyString]
  | String d s' =>
      if Ascii.eqb d sep then EmptyString :: split sep s'
      else match split sep s' with
           | [] => [String d EmptyString]
           | w :: ws => String d w :: ws
           end
  end.

(** Python truthiness of a string: the empty string is falsy. *)
Definition truthy (s : string) : bool :=
  match s with EmptyString => false | String _ _ => true end.

End Str.

(** ** The fragment of [re] the module uses

    Both regular expressions of the file are built from one bracketed
    character class: the class of nine forbidden characters in
    [is_valid_filename] and the normalisation pattern, by default the
    repeated negated class of the lower-case letters and the digits. *)

Module Re.

Inductive class_item : Type :=
| Lit (c : ascii)
| Range (lo hi : ascii).

Record char_class : Type := { negated : bool; items : list class_item }.

Inductive regex : Type :=
| OneOf (cls : char_class)      (* [...]  *)
| Run (cls : char_class).       (* [...]+ *)

Definition item_matches (c : ascii) (it : class_item) : bool :=
  match it with
  | Lit d => Ascii.eqb c d
  | Range lo hi =>
      (nat_of_ascii lo <=? nat_of_ascii c)%nat
      && (nat_of_ascii c <=? nat_of_ascii hi)%nat
  end.

Definition class_matches (cls : char_class) (c : ascii) : bool :=
  xorb (negated cls) (existsb (item_matches c) (items cls)).

Definition class_of (r : regex) : char_class :=
  match r with OneOf cls => cls | Run cls => cls end.

(** Length of the match of [r] anchored at the start of [s]; [+] is
    greedy.  A match is never empty. *)
Definition match_prefix (r : regex) (s : string) : option nat :=
  match r with
  | OneOf cls =>
      match s with
      | String c _ => if class_matches cls c then Some 1 else None
      | EmptyString => None
      end
  | Run cls =>
      match Str.span_len (class_matches cls) s with
      | O => None
      | S k => Some (S k)
      end
  end.

(** [re.search(r, s)] as a truth value. *)
Fixpoint search (r : regex) (s : string) : bool :=
  match s with
  | EmptyString => false
  | String _ s' =>
      match match_prefix r s with
      | Some _ => true
      | None => search r s'
      end
  end.

Lemma drop_length_le (n : nat) (s : string) :
  String.length (Str.drop n s) <= String.length s.
Proof.
  revert s; induction n as [|n IH]; intros [|c s]; simpl; auto.
Qed.

(** [re.sub(r, '', s)]: scan from the left; where [r] matches, the match
    is replaced by the empty string and the scan resumes after it;
    elsewhere the character is copied. *)
Equations? sub_empty (r : regex) (s : string) : string
  by wf (String.length s) lt :=
  sub_empty r EmptyString := EmptyString;
  sub_empty r (String c s') with match_prefix r (String c s') := {
    | Some k => sub_empty r (Str.drop (pred k) s')
    | None => String c (sub_empty r s') }.
Proof.
  pose proof (drop_length_le (pred k) s'). simpl. lia.
Qed.

End Re.

(** ** The helpers of [file_tools.py] *)

(** [pathlib.PurePosixPath(s).name]: the last component of [s] that is
    neither empty nor ["."], the empty string when there is none. *)
Definition path_parts (s : string) : list string :=
  List.filter (fun p => negb (String.eqb p "") && negb (String.eqb p "."))
              (Str.split "/" s).

Definition path_name (s : string) : string := List.last (path_parts s) "".

(** [PurePath.stem] (Python 3.10 and 3.11, the versions the package
    declares): the name without its last suffix. *)
Definition path_stem (name : string) : string :=
  let i := Str.rfind "." name in
  if ((0 <? i)%Z && (i <? Z.of_nat (String.length name) - 1)%Z)%bool
  then Str.take (Z.to_nat i) name
  else name.

(** [remove_extension]: [return Path(filename).stem]. *)
Definition remove_extension (filename : string) : string :=
  path_stem (path_name filename).

(** The class of [is_valid_filename]: backslash, slash, star, question
    mark, colon, double quote (code 34), angle brackets and bar. *)
Definition windows_illegal : Re.char_class :=
  {| Re.negated := false;
     Re.items := [Re.Lit "\"; Re.Lit "/"; Re.Lit "*"; Re.Lit "?"; Re.Lit ":";
                  Re.Lit "034"; Re.Lit "<"; Re.Lit ">"; Re.Lit "|"] |}.

Definition is_valid_filename (filename : string) (os_type : string) : bool :=
  if String.eqb os_type "windows" && Re.search (Re.OneOf windows_illegal) filename
  then false
  else if String.eqb os_type "unix"
          && (Str.mem "/" filename || Str.mem "000" filename)
  then false
  else true.

(** The default normalisation pattern: one or more characters outside
    a-z and 0-9. *)
Definition default_pattern : Re.regex :=
  Re.Run {| Re.negated := true;
            Re.items := [Re.Range "a" "z"; Re.Range "0" "9"] |}.

(** [normalize_string]: [re.sub(filter_pattern, '', s.lower())]. *)
Definition normalize_string (s : string) (filter_pattern : Re.regex) : string :=
  Re.sub_empty filter_pattern (Str.lower s).

(** ** Similarity scores *)

(** [difflib.SequenceMatcher(isjunk=None, a=a, b=b, autojunk=False)
    .quick_ratio()], transcribed from CPython's [difflib]: an upper bound
    of [ratio()] obtained by counting, with multiplicity, the characters
    the two strings share. *)
Module Difflib.

(** A Python [dict] from characters to integers. *)
Definition dict : Type := list (ascii * Z).

Fixpoint get (d : dict) (k : ascii) : option Z :=
  match d with
  | [] => None
  | (k', v) :: d' => if Ascii.eqb k' k then Some v else get d' k
  end.

Fixpoint set (d : dict) (k : ascii) (v : Z) : dict :=
  match d with
  | [] => [(k, v)]
  | (k', v') :: d' =>
      if Ascii.eqb k' k then (k, v) :: d' else (k', v') :: set d' k v
  end.

Definition get_default (d : dict) (k : ascii) (dflt : Z) : Z :=
  match get d k with Some v => v | None => dflt end.

(** [for elt in self.b: fullbcount[elt] = fullbcount.get(elt, 0) + 1] *)
Fixpoint count_elements (b : string) (fullbcount : dict) : dict :=
  match b with
  | EmptyString => fullbcount
  | String elt b' =>
      count_elements b' (set fullbcount elt (get_default fullbcount elt 0 + 1)%Z)
  end.

(** The loop over [self.a] of [quick_ratio]. *)
Fixpoint count_matches (a : string) (fullbcount avail : dict) (matches : Z) : Z :=
  match a with
  | EmptyString => matches
  | String elt a' =>
      let numb := match get avail elt with
                  | Some n => n
                  | None => get_default fullbcount elt 0
                  end in
      count_matches a' fullbcount (set avail elt (numb - 1)%Z)
                    (if (0 <? numb)%Z then (matches + 1)%Z else matches)
  end.

(** [_calculate_ratio]: [2.0 * matches / length], and [1.0] when
    [length] is zero. *)
Definition calculate_ratio (matches length : Z) : Q :=
  if (length =? 0)%Z then 1%Q
  else (2 * inject_Z matches / inject_Z length)%Q.

Definition quick_ratio (a b : string) : Q :=
  calculate_ratio (count_matches a (count_elements b []) [] 0%Z)
                  (Z.of_nat (String.length a) + Z.of_nat (String.length b))%Z.

End Difflib.

(** The similarity functions of the libraries [rapidfuzz] and [thefuzz]
    and [SequenceMatcher.ratio] are not part of the package: they are
    taken as given. *)
Record Scorers : Type := {
  fuzz_ratio : string -> string -> Q;            (* rapidfuzz.fuzz.ratio *)
  fuzz_partial_ratio : string -> string -> Q;    (* rapidfuzz.fuzz.partial_ratio *)
  tfuzz_ratio : string -> string -> Q;           (* thefuzz.fuzz.ratio *)
  tfuzz_partial_ratio : string -> string -> Q;   (* thefuzz.fuzz.partial_ratio *)
  matcher_ratio : string -> string -> Q          (* SequenceMatcher.ratio *)
}.

(** [x > y] and [x >= y] on scores. *)
Definition Qgt_bool (x y : Q) : bool := negb (Qle_bool x y).
Definition Qge_bool (x y : Q) : bool := Qle_bool y x.

(** ** Exceptions and the count of library calls

    A computation either raises or returns, and threads the number of
    calls made so far to a similarity function of a library. *)

Inductive exn : Type :=
| ValueError (msg : string)
| TypeError (msg : string).

Definition M (A : Type) : Type := nat -> (exn + A) * nat.

Definition ret {A} (a : A) : M A := fun n => (inr a, n).

Definition raise {A} (e : exn) : M A := fun n => (inl e, n).

Definition bind {A B} (m : M A) (f : A -> M B) : M B :=
  fun n => match m n with
           | (inl e, n') => (inl e, n')
           | (inr a, n') => f a n'
           end.

(** The result of one call into a similarity library. *)
Definition call {A} (a : A) : M A := fun n => (inr a, S n).

Notation "x <- m ;; k" := (bind m (fun x => k))
  (at level 61, m at next level, right associativity).

(** [', '.join(l)] *)
Fixpoint join (sep : string) (l : list string) : string :=
  match l with
  | [] => ""
  | [x] => x
  | x :: l' => x ++ sep ++ join sep l'
  end.

Definition valid_libraries : list string := ["rapidfuzz"; "thefuzz"; "difflib"].
Definition valid_methods : list string := ["exact"; "partial"].

(** [x in l] on a list of strings. *)
Definition str_in (x : string) (l : list string) : bool :=
  existsb (String.eqb x) l.

Definition library_error (library : string) : exn :=
  ValueError ("Error: Python library '" ++ library
              ++ "' does not exist. Please select between "
              ++ join ", " valid_libraries ++ ".").

Definition method_error (match_method : string) : exn :=
  ValueError ("Error: Match method '" ++ match_method
              ++ "' is not supported. Options are "
              ++ join ", " valid_methods ++ ".").

(** A match record, the dictionary with the keys ['name'] and
    ['matched_name']. *)
Record match_record : Type := { name : string; matched_name : string }.

Section Matching.

Variable ext : Scorers.

(** [get_score].  The function ends after the [elif] on ['difflib'];
    falling out of it returns [None], which the caller's comparison with a
    number rejects with a [TypeError]. *)
Definition get_score (library match_method : string)
           (normalized_name normalized_target : string) : M Q :=
  if negb (str_in library valid_libraries) then raise (library_error library)
  else if negb (str_in match_method valid_methods)
  then raise (method_error match_method)
  else if String.eqb library "rapidfuzz" then
    if String.eqb match_method "exact"
    then call (fuzz_ratio ext normalized_name normalized_target)
    else call (fuzz_partial_ratio ext normalized_name normalized_target)
  else if String.eqb library "thefuzz" then
    if String.eqb match_method "exact"
    then call (tfuzz_ratio ext normalized_name normalized_target)
    else call (tfuzz_partial_ratio ext normalized_name normalized_target)
  else if String.eqb library "difflib" then
    if String.eqb match_method "exact"
    then call (matcher_ratio ext normalized_name normalized_target * 100)%Q
    else call (Difflib.quick_ratio normalized_name normalized_target * 100)%Q
  else raise (TypeError "'>' not supported between instances of 'NoneType' and 'int'").

(** The pair [(best_match, highest_score)] of the inner loop. *)
Definition best_state : Type := (option string * Q)%type.

(** The body of the inner loop after the score is known. *)
Definition update_best (similarity_threshold : Q) (target_name : string)
           (score : Q) (st : best_state) : best_state :=
  let '(best_match, highest_score) := st in
  if Qgt_bool score highest_score then
    (if Qge_bool score similarity_threshold then Some target_name else best_match,
     score)
  else st.

Section Run.

Variables (library match_method : string) (similarity_threshold : Q)
          (normalization_pattern : Re.regex) (filename_mode : bool).

(** The string that is scored for [target_name]. *)
Definition normalized_target_of (target_name : string) : string :=
  if filename_mode
  then normalize_string (remove_extension target_name) normalization_pattern
  else normalize_string target_name normalization_pattern.

(** [for target_name in target_list: ...] *)
Fixpoint inner_loop (normalized_name : string) (target_list : list string)
         (st : best_state) : M best_state :=
  match target_list with
  | [] => ret st
  | target_name :: rest =>
      if filename_mode && negb (is_valid_filename target_name "windows")
      then inner_loop normalized_name rest st          (* continue *)
      else
        score <- get_score library match_method normalized_name
                           (normalized_target_of target_name) ;;
        inner_loop normalized_name rest
                   (update_best similarity_threshold target_name score st)
  end.

(** [if best_match:] *)
Definition best_truthy (best_match : option string) : bool :=
  match best_match with
  | Some t => Str.truthy t
  | None => false
  end.

(** [for base_name in base_list: ...] *)
Fixpoint outer_loop (base_list target_list : list string)
         (matched_results : list match_record) (unmatched_names : list string)
  : M (list match_record * list string) :=
  match base_list with
  | [] => ret (matched_results, unmatched_names)
  | base_name :: rest =>
      let normalized_name := normalize_string base_name normalization_pattern in
      st <- inner_loop normalized_name target_list (None, 0%Q) ;;
      match fst st with
      | Some best_match =>
          if Str.truthy best_match
          then outer_loop rest target_list
                 (matched_results
                    ++ [{| name := base_name; matched_name := best_match |}])
                 unmatched_names
          else outer_loop rest target_list matched_results
                 (unmatched_names ++ [base_name])
      | None =>
          outer_loop rest target_list matched_results
                     (unmatched_names ++ [base_name])
      end
  end.

End Run.

(** [string_matching]: both result lists start empty. *)
Definition string_matching (base_list target_list : list string)
           (library match_method : string) (similarity_threshold : Q)
           (normalization_pattern : Re.regex) (filename_mode : bool)
  : M (list match_record * list string) :=
  outer_loop library match_method similarity_threshold normalization_pattern
             filename_mode base_list target_list [] [].

End Matching.

(** ** Name lists on disk: [match_names_to_filenames]

    The files the function touches are modelled by their decoded text.
    Diagnostics sent to the logger are left out, and so is the failure of a
    write. *)

Module Text.

(** [str.isspace] on the code points below 256: tab to carriage return,
    the four separators 28 to 31, the space, NEL and the no-break space. *)
Definition is_space (c : ascii) : bool :=
  let n := nat_of_ascii c in
  ((9 <=? n)%nat && (n <=? 13)%nat) || ((28 <=? n)%nat && (n <=? 32)%nat)
  || (n =? 133)%nat || (n =? 160)%nat.

Fixpoint lstrip (s : string) : string :=
  match s with
  | EmptyString => EmptyString
  | String c s' => if is_space c then lstrip s' else s
  end.

Fixpoint rstrip (s : string) : string :=
  match s with
  | EmptyString => EmptyString
  | String c s' =>
      match rstrip s' with
      | EmptyString => if is_space c then EmptyString else String c EmptyString
      | r => String c r
      end
  end.

(** [s.strip()] *)
Definition strip (s : string) : string := lstrip (rstrip s).

(** What a file opened in text mode delivers: a carriage return, with the
    line feed that may follow it, is read as one line feed.  The flag tells
    that the previous character was a carriage return. *)
Fixpoint translate_newlines (pending_cr : bool) (s : string) : string :=
  match s with
  | EmptyString => EmptyString
  | String c s' =>
      if Ascii.eqb c "013" then String "010" (translate_newlines true s')
      else if Ascii.eqb c "010" && pending_cr then translate_newlines false s'
      else String c (translate_newlines false s')
  end.

Definition universal_newlines (s : string) : string :=
  translate_newlines false s.

(** [f.readlines()]: the lines, each with its line feed; the last line may
    lack one. *)
Fixpoint readlines (s : string) : list string :=
  match s with
  | EmptyString => []
  | String c s' =>
      if Ascii.eqb c "010" then String c EmptyString :: readlines s'
      else match readlines s' with
           | [] => [String c EmptyString]
           | l :: ls => String c l :: ls
           end
  end.

(** [[line.strip() for line in f.readlines()]], the way both
    [match_names_to_filenames] and [copy_matched_files] load a list. *)
Definition read_stripped_lines (content : string) : list string :=
  List.map strip (readlines (universal_newlines content)).

(** The text produced by writing each string followed by a line feed. *)
Fixpoint write_lines (l : list string) : string :=
  match l with
  | [] => EmptyString
  | x :: l' => x ++ String "010" EmptyString ++ write_lines l'
  end.

End Text.

(** A path is missing, or exists and cannot be read as text (a directory,
    a file without permission or with undecodable bytes), or is a file with
    its text. *)
Inductive file : Type :=
| Missing
| Unreadable (why : string)
| File (content : string).

Definition exists_path (fs : string -> file) (path : string) : bool :=
  match fs path with Missing => false | _ => true end.

(** The exceptions of [match_names_to_filenames]: its own two, and those
    [string_matching] lets through. *)
Inductive io_exn : Type :=
| FileNotFoundError (msg : string)
| IOError (msg : string)
| Propagated (e : exn).

(** [matched_results.sort(key=lambda x: x['name'])]: the sort is stable
    and compares keys with [<]; any stable sort returns the same list, here
    by insertion from the right. *)
Fixpoint insert_by_name (x : match_record) (l : list match_record)
  : list match_record :=
  match l with
  | [] => [x]
  | y :: l' =>
      if String.ltb (name y) (name x) then y :: insert_by_name x l'
      else x :: l
  end.

Definition sort_by_name (l : list match_record) : list match_record :=
  fold_right insert_by_name [] l.

(** The three files of the option [output_to_file], in the order they are
    written. *)
Definition output_files (matched_results : list match_record)
           (unmatched_results : list string) : list (string * string) :=
  [("output_matched.txt",
    Text.write_lines
      (List.map (fun r => name r ++ " -> " ++ matched_name r) matched_results));
   ("matched_list.txt",
    Text.write_lines (List.map matched_name matched_results));
   ("output_unmatched.txt", Text.write_lines unmatched_results)].

(** [match_names_to_filenames]: the matched records, the unmatched names
    and the files written. *)
Definition match_names_to_filenames
           (ext : Scorers) (fs : string -> file)
           (name_list_file filename_list_file : string)
           (library match_method : string) (similarity_threshold : Q)
           (normalization_pattern : Re.regex)
           (sort verbose output_to_file : bool)
  : nat -> (io_exn + (list match_record * list string * list (string * string)))
           * nat :=
  fun n =>
    if negb (exists_path fs name_list_file)
       || negb (exists_path fs filename_list_file)
    then (inl (FileNotFoundError "One or more input files do not exist."), n)
    else
      match fs name_list_file, fs filename_list_file with
      | File names, File filenames =>
          let name_list := Text.read_stripped_lines names in
          let filename_list := Text.read_stripped_lines filenames in
          match string_matching ext name_list filename_list library
                                match_method similarity_threshold
                                normalization_pattern true n with
          | (inl e, n') => (inl (Propagated e), n')
          | (inr (matched_results, unmatched_results), n') =>
              let matched_results :=
                if sort then sort_by_name matched_results
                else matched_results in
              (inr (matched_results, unmatched_results,
                    if output_to_file
                    then output_files matched_results unmatched_results
                    else []),
               n')
          end
      | Unreadable why, _ => (inl (IOError ("Error reading files: " ++ why)), n)
      | _, Unreadable why => (inl (IOError ("Error reading files: " ++ why)), n)
      | _, _ => (inl (FileNotFoundError "One or more input files do not exist."), n)
      end.

(** ** Reference definitions, in the words of the specification *)

(** Extension stripping as the specification words it: everything from the
    last dot on is removed, unless there is no dot or the only dot is the
    leading character. *)
Definition strip_last_dot (s : string) : string :=
  let i := Str.rfind "." s in
  if (0 <? i)%Z then Str.take (Z.to_nat i) s else s.

(** The characters the restrictive rule rejects, in the order the
    specification lists them. *)
Definition restrictive_forbidden : list ascii :=
  ["\"; "/"; ":"; "*"; "?"; "034"; "<"; ">"; "|"]%char.

(** The configuration check at the head of [get_score], and the error it
    raises: the library is tested first. *)
Definition config_valid (library match_method : string) : bool :=
  str_in library valid_libraries && str_in match_method valid_methods.

Definition config_error (library match_method : string) : exn :=
  if str_in library valid_libraries then method_error match_method
  else library_error library.

(** The score of a pair under a recognised library and method. *)
Definition score_of (ext : Scorers) (library match_method : string)
           (a b : string) : Q :=
  if String.eqb library "rapidfuzz" then
    if String.eqb match_method "exact" then fuzz_ratio ext a b
    else fuzz_partial_ratio ext a b
  else if String.eqb library "thefuzz" then
    if String.eqb match_method "exact" then tfuzz_ratio ext a b
    else tfuzz_partial_ratio ext a b
  else
    if String.eqb match_method "exact" then (matcher_ratio ext a b * 100)%Q
    else (Difflib.quick_ratio a b * 100)%Q.

(** The targets that are scored: all of them, or in filename mode those
    that pass the filename filter. *)
Definition considered (filename_mode : bool) (target_name : string) : bool :=
  negb filename_mode || is_valid_filename target_name "windows".

Definition candidates (filename_mode : bool) (target_list : list string)
  : list string :=
  List.filter (considered filename_mode) target_list.

(** The considered targets, in the order of the target list, each with
    its score against the normalised name. *)
Definition scored_against (ext : Scorers) (library match_method : string)
           (normalization_pattern : Re.regex) (filename_mode : bool)
           (normalized_name : string) (target_list : list string)
  : list (string * Q) :=
  List.map
    (fun t => (t, score_of ext library match_method normalized_name
                    (normalized_target_of normalization_pattern filename_mode t)))
    (candidates filename_mode target_list).

Definition scored (ext : Scorers) (library match_method : string)
           (normalization_pattern : Re.regex) (filename_mode : bool)
           (base_name : string) (target_list : list string)
  : list (string * Q) :=
  scored_against ext library match_method normalization_pattern filename_mode
                 (normalize_string base_name normalization_pattern) target_list.

(** One turn of the inner loop on a scored target. *)
Definition step (similarity_threshold : Q) (st : best_state) (p : string * Q)
  : best_state :=
  update_best similarity_threshold (fst p) (snd p) st.

(** [t] is the first entry of [l] that attains the maximal score [m]:
    every earlier entry scores strictly less, no later entry scores
    more. *)
Definition first_attaining (l : list (string * Q)) (m : Q) (t : string) : Prop :=
  exists (l1 : list (string * Q)) (s : Q) (l2 : list (string * Q)),
    l = (l1 ++ (t, s) :: l2)%list
    /\ (s == m)%Q
    /\ (forall p, List.In p l1 -> (snd p < m)%Q)
    /\ (forall p, List.In p l2 -> (snd p <= m)%Q).

(** The running best after a whole list of scored targets. *)
Definition select (similarity_threshold : Q) (l : list (string * Q))
  : option string :=
  fst (fold_left (step similarity_threshold) l (None, 0%Q)).

(** The outcome of the outer loop for one base name, as a function of the
    scores of its considered targets. *)
Section Outcome.

Variables (ext : Scorers) (library match_method : string)
          (similarity_threshold : Q) (normalization_pattern : Re.regex)
          (filename_mode : bool) (target_list : list string).

Definition best_for (base_name : string) : option string :=
  select similarity_threshold
         (scored ext library match_method normalization_pattern filename_mode
                 base_name target_list).

Definition is_matched (base_name : string) : bool :=
  best_truthy (best_for base_name).

Definition record_of (base_name : string) : list match_record :=
  match best_for base_name with
  | Some t =>
      if Str.truthy t then [{| name := base_name; matched_name := t |}] else []
  | None => []
  end.

Definition matches_of (base_list : list string) : list match_record :=
  flat_map record_of base_list.

Definition unmatched_of (base_list : list string) : list string :=
  List.filter (fun b => negb (is_matched b)) base_list.

End Outcome.

(** Similarity functions for concrete runs: identical strings score 100,
    all other pairs 0 (a ratio of 1, respectively 0, for [SequenceMatcher]). *)
Definition same_or_nothing (a b : string) : Q :=
  if String.eqb a b then 100%Q else 0%Q.

Definition equality_scorers : Scorers :=
  {| fuzz_ratio := same_or_nothing;
     fuzz_partial_ratio := same_or_nothing;
     tfuzz_ratio := same_or_nothing;
     tfuzz_partial_ratio := same_or_nothing;
     matcher_ratio := fun a b => if String.eqb a b then 1%Q else 0%Q |}.

(** Similarity functions under which every pair scores 100. *)
Definition constant_scorers : Scorers :=
  {| fuzz_ratio := fun _ _ => 100%Q;
     fuzz_partial_ratio := fun _ _ => 100%Q;
     tfuzz_ratio := fun _ _ => 100%Q;
     tfuzz_partial_ratio := fun _ _ => 100%Q;
     matcher_ratio := fun _ _ => 1%Q |}.

(** The partial method as the specification words it: the best
    similarity of the shorter string against the contiguous substrings of
    the longer one that have the length of the shorter. *)
Fixpoint windows (n : nat) (b : string) : list string :=
  match b with
  | EmptyString => if (n =? 0)%nat then [EmptyString] else []
  | String _ b' =>
      if (n <=? String.length b)%nat then Str.take n b :: windows n b' else []
  end.

Definition best_of (scores : list Q) : Q :=
  fold_right (fun x m => if Qle_bool m x then x else m) 0%Q scores.

Definition best_window_similarity (sim : string -> string -> Q) (a b : string) : Q :=
  if (String.length a <=? String.length b)%nat
  then best_of (List.map (sim a) (windows (String.length a) b))
  else best_of (List.map (sim b) (windows (String.length b) a)).

(** * Properties *)

(** ** Strings and the regular-expression fragment *)

Lemma lower_char_idem (c : ascii) :
  Str.lower_char (Str.lower_char c) = Str.lower_char c.
Proof. destruct c as [[] [] [] [] [] [] [] []]; reflexivity. Qed.

Lemma lower_idem (s : string) : Str.lower (Str.lower s) = Str.lower s.
Proof.
  induction s as [|c s IH]; simpl; [reflexivity|].
  now rewrite lower_char_idem, IH.
Qed.

Lemma filter_idem (p : ascii -> bool) (s : string) :
  Str.filter p (Str.filter p s) = Str.filter p s.
Proof.
  induction s as [|c s IH]; simpl; [reflexivity|].
  destruct (p c) eqn:E; simpl; [rewrite E, IH|]; auto.
Qed.

(** Lower-casing a string whose characters are lower-cased already. *)
Lemma lower_filter_lower (p : ascii -> bool) (s : string) :
  Str.lower (Str.filter p (Str.lower s)) = Str.filter p (Str.lower s).
Proof.
  induction s as [|c s IH]; simpl; [reflexivity|].
  destruct (p (Str.lower_char c)); simpl; [rewrite lower_char_idem|];
    now rewrite IH.
Qed.

Lemma filter_drop_span (p : ascii -> bool) (s : string) :
  Str.filter (fun c => negb (p c)) (Str.drop (Str.span_len p s) s)
  = Str.filter (fun c => negb (p c)) s.
Proof.
  induction s as [|c s IH]; simpl; [reflexivity|].
  destruct (p c) eqn:E; simpl; rewrite ?E; simpl; auto.
Qed.

(** Deleting every match of a class, repeated or not, keeps exactly the
    characters outside the class, in their order. *)
Lemma sub_empty_filter (r : Re.regex) (s : string) :
  Re.sub_empty r s
  = Str.filter (fun c => negb (Re.class_matches (Re.class_of r) c)) s.
Proof.
  funelim (Re.sub_empty r s); [reflexivity | |].
  - (* a match starts here *)
    rewrite H. clear H Heqcall. destruct r as [cls|cls]; simpl in *.
    + destruct (Re.class_matches cls c); [|discriminate].
      inversion Heq; subst; reflexivity.
    + destruct (Re.class_matches cls c); [|discriminate].
      inversion Heq; subst; simpl. apply filter_drop_span.
  - (* no match here: the character is kept *)
    rewrite H. clear H Heqcall. destruct r as [cls|cls]; simpl in *;
      destruct (Re.class_matches cls c); (discriminate || reflexivity).
Qed.

Lemma any_exists (p : ascii -> bool) (s : string) :
  Str.any p s = true <-> exists c, Str.In c s /\ p c = true.
Proof.
  induction s as [|d s IH]; simpl.
  - split; [discriminate | intros (c & [] & _)].
  - rewrite orb_true_iff, IH. split.
    + intros [H | (c & Hc & Hp)]; [exists d | exists c]; auto.
    + intros (c & [-> | Hc] & Hp); [left | right; exists c]; auto.
Qed.

Lemma mem_In (c : ascii) (s : string) : Str.mem c s = true <-> Str.In c s.
Proof.
  induction s as [|d s IH]; simpl; [split; [discriminate | tauto]|].
  rewrite orb_true_iff, IH, Ascii.eqb_eq. tauto.
Qed.

Lemma search_one_of (cls : Re.char_class) (s : string) :
  Re.search (Re.OneOf cls) s = Str.any (Re.class_matches cls) s.
Proof.
  induction s as [|c s IH]; simpl; [reflexivity|].
  destruct (Re.class_matches cls c); simpl; auto.
Qed.

Lemma windows_illegal_forbidden (c : ascii) :
  Re.class_matches windows_illegal c = true <-> List.In c restrictive_forbidden.
Proof.
  unfold Re.class_matches, windows_illegal, restrictive_forbidden; simpl.
  rewrite !orb_true_iff, !Ascii.eqb_eq.
  intuition (subst; auto; try discriminate).
Qed.

(** ** Normalisation *)

(** C6 (normalisation is idempotent): for every string [s] and every
    character-retention pattern, normalising the normalised string gives
    the normalised string again. *)
Theorem normalize_string_idempotent (s : string) (pattern : Re.regex) :
  normalize_string (normalize_string s pattern) pattern
  = normalize_string s pattern.
Proof.
  unfold normalize_string. rewrite !sub_empty_filter.
  now rewrite lower_filter_lower, filter_idem.
Qed.

(** ** The filename filter *)

(** C7 ([is_valid_filename] as a total predicate): under the rule
    [windows] the answer is [False] exactly when the name holds one of the
    nine forbidden characters, under the rule [unix] exactly when it holds a
    slash or the NUL character, and [True] otherwise. *)
Theorem is_valid_filename_spec (filename : string) :
  (is_valid_filename filename "windows" = false
   <-> exists c, Str.In c filename /\ List.In c restrictive_forbidden)
  /\ (is_valid_filename filename "windows" = true
      <-> forall c, Str.In c filename -> ~ List.In c restrictive_forbidden)
  /\ (is_valid_filename filename "unix" = false
      <-> Str.In "/" filename \/ Str.In "000" filename)
  /\ (is_valid_filename filename "unix" = true
      <-> ~ Str.In "/" filename /\ ~ Str.In "000" filename).
Proof.
  assert (W : is_valid_filename filename "windows"
              = negb (Str.any (Re.class_matches windows_illegal) filename)).
  { unfold is_valid_filename. rewrite search_one_of. simpl.
    now destruct (Str.any _ filename). }
  assert (U : is_valid_filename filename "unix"
              = negb (Str.mem "/" filename || Str.mem "000" filename)).
  { unfold is_valid_filename. simpl. now destruct (_ || _). }
  assert (E : Str.any (Re.class_matches windows_illegal) filename = true
              <-> exists c, Str.In c filename /\ List.In c restrictive_forbidden).
  { rewrite any_exists. split; intros (c & Hc & Hf); exists c; split; auto;
      now apply windows_illegal_forbidden. }
  rewrite W, U, !negb_false_iff, !negb_true_iff, orb_true_iff, orb_false_iff.
  rewrite <- !not_true_iff_false, !mem_In, E.
  repeat split; try tauto.
  - intros H c Hc Hf. apply H. now exists c.
  - intros H (c & Hc & Hf). now apply (H c).
Qed.

(** ** Extension stripping *)

Lemma split_no_sep (sep : ascii) (s : string) :
  Str.mem sep s = false -> Str.split sep s = [s].
Proof.
  induction s as [|d s IH]; simpl; [reflexivity|].
  rewrite orb_false_iff. intros [-> Hs]. now rewrite (IH Hs).
Qed.

(** A string without a slash is its own final path component, the
    current-directory name apart. *)
Lemma path_name_plain (s : string) :
  Str.mem "/" s = false -> s <> "." -> path_name s = s.
Proof.
  intros Hs Hdot. unfold path_name, path_parts. rewrite (split_no_sep _ _ Hs).
  simpl. destruct (String.eqb_spec s ""); [subst; reflexivity|].
  destruct (String.eqb_spec s "."); [contradiction | reflexivity].
Qed.

Lemma rfind_bounds (c : ascii) (s : string) :
  (-1 <= Str.rfind c s < Z.of_nat (String.length s))%Z.
Proof.
  induction s as [|d s IH]; simpl String.length; simpl Str.rfind; [lia|].
  destruct (Z.leb_spec 0 (Str.rfind c s)); [lia|].
  destruct (Ascii.eqb d c); lia.
Qed.

Lemma rfind_absent (c : ascii) (s : string) :
  Str.mem c s = false -> Str.rfind c s = (-1)%Z.
Proof.
  induction s as [|d s IH]; simpl; [reflexivity|].
  rewrite orb_false_iff. intros [-> Hs]. now rewrite (IH Hs).
Qed.

(** The last occurrence: nothing equal to [c] follows it. *)
Lemma rfind_last (c : ascii) (p e : string) :
  Str.mem c e = false ->
  Str.rfind c (p ++ String c e) = Z.of_nat (String.length p).
Proof.
  intros He. induction p as [|d p IH].
  - simpl. rewrite (rfind_absent _ _ He). simpl. now rewrite Ascii.eqb_refl.
  - simpl String.length. simpl Str.rfind. rewrite IH.
    destruct (Z.leb_spec 0 (Z.of_nat (String.length p))); lia.
Qed.

Lemma take_app (p x : string) : Str.take (String.length p) (p ++ x) = p.
Proof. induction p as [|d p IH]; simpl; [now destruct x | now rewrite IH]. Qed.

Lemma length_app (p x : string) :
  String.length (p ++ x) = String.length p + String.length x.
Proof. induction p as [|d p IH]; simpl; auto. Qed.

(** What [Path(...).stem] does to a bare filename. *)
Lemma remove_extension_plain (s : string) :
  Str.mem "/" s = false -> s <> "." ->
  remove_extension s
  = if (Str.rfind "." s =? Z.of_nat (String.length s) - 1)%Z
    then s else strip_last_dot s.
Proof.
  intros Hs Hdot. unfold remove_extension. rewrite (path_name_plain _ Hs Hdot).
  unfold path_stem, strip_last_dot. pose proof (rfind_bounds "." s) as B.
  destruct (Z.eqb_spec (Str.rfind "." s) (Z.of_nat (String.length s) - 1)) as [E|E].
  - replace (Str.rfind "." s <? Z.of_nat (String.length s) - 1)%Z with false
      by (symmetry; apply Z.ltb_ge; lia).
    now rewrite andb_false_r.
  - replace (Str.rfind "." s <? Z.of_nat (String.length s) - 1)%Z with true
      by (symmetry; apply Z.ltb_lt; lia).
    now rewrite andb_true_r.
Qed.

(** What the code does on a bare filename: for a string without a slash,
    other than the single dot, [remove_extension] removes the last dot and
    what follows it when that dot is neither the first nor the last
    character, and returns the string unchanged when it has no dot, when its
    only dot leads, or when it ends with a dot. *)
Theorem remove_extension_filename (s : string) :
  Str.mem "/" s = false -> s <> "." ->
  (forall p e, s = p ++ String "." e -> Str.mem "." e = false ->
               p <> "" -> e <> "" -> remove_extension s = p)
  /\ (Str.mem "." s = false -> remove_extension s = s)
  /\ (forall e, s = String "." e -> Str.mem "." e = false ->
                remove_extension s = s)
  /\ (forall p, s = p ++ "." -> remove_extension s = s).
Proof.
  intros Hs Hdot. rewrite (remove_extension_plain s Hs Hdot).
  unfold strip_last_dot. repeat split.
  - intros p e -> He Hp Hne. rewrite (rfind_last _ p e He), length_app.
    simpl String.length.
    destruct e as [|x e]; [contradiction|]. destruct p as [|y p]; [contradiction|].
    simpl String.length.
    destruct (Z.eqb_spec (Z.of_nat (S (String.length p)))
                (Z.of_nat (S (String.length p) + S (S (String.length e))) - 1)); [lia|].
    destruct (Z.ltb_spec 0 (Z.of_nat (S (String.length p)))); [|lia].
    rewrite Nat2Z.id. apply (take_app (String y p)).
  - intros Hnone. rewrite (rfind_absent _ _ Hnone).
    change (0 <? -1)%Z with false. now destruct (_ =? _)%Z.
  - intros e -> He. change (String "." e) with ("" ++ String "." e).
    rewrite (rfind_last "." "" e He).
    change (0 <? Z.of_nat (String.length ""))%Z with false.
    now destruct (_ =? _)%Z.
  - intros p ->. rewrite (rfind_last "." p "" eq_refl), length_app. simpl.
    replace (Z.of_nat (String.length p) =? Z.of_nat (String.length p + 1) - 1)%Z
      with true by (symmetry; apply Z.eqb_eq; lia).
    reflexivity.
Qed.

Lemma remove_extension_filename_witness :
  remove_extension "archive.tar.gz" = "archive.tar"
  /\ remove_extension "no_extension" = "no_extension"
  /\ remove_extension ".hidden_file" = ".hidden_file"
  /\ remove_extension "file." = "file.".
Proof.
  refine (conj _ (conj _ (conj _ _))).
  - apply (proj1 (remove_extension_filename "archive.tar.gz" eq_refl
                    ltac:(discriminate)) "archive.tar" "gz");
      (reflexivity || discriminate).
  - apply (proj1 (proj2 (remove_extension_filename "no_extension" eq_refl
                           ltac:(discriminate)))); reflexivity.
  - apply (proj1 (proj2 (proj2 (remove_extension_filename ".hidden_file" eq_refl
                           ltac:(discriminate)))) "hidden_file"); reflexivity.
  - apply (proj2 (proj2 (proj2 (remove_extension_filename "file." eq_refl
                           ltac:(discriminate)))) "file"); reflexivity.
Defined.

(** C5 (extension stripping leaves a name unchanged when its only dot is
    the leading character) is broken by the code on the single dot: the
    claim, and the docstring of [remove_extension], return it unchanged,
    yet the code returns the empty string, because the path [.] has no
    final component. *)
Lemma remove_extension_single_dot :
  strip_last_dot "." = "."
  /\ remove_extension "." = ""
  /\ String.eqb (remove_extension ".") (strip_last_dot ".") = false.
Proof. repeat split. Qed.

(** With a slash only the final path component survives. *)
Example remove_extension_directory : remove_extension "a/b.txt" = "b".
Proof. reflexivity. Qed.

(** ** Scoring *)

Lemma Qgt_bool_iff (x y : Q) : Qgt_bool x y = true <-> (y < x)%Q.
Proof.
  unfold Qgt_bool. rewrite negb_true_iff, <- not_true_iff_false, Qle_bool_iff.
  split; [apply Qnot_le_lt | apply Qlt_not_le].
Qed.

Lemma Qgt_bool_false (x y : Q) : Qgt_bool x y = false <-> (x <= y)%Q.
Proof. unfold Qgt_bool. now rewrite negb_false_iff, Qle_bool_iff. Qed.

Lemma Qge_bool_iff (x y : Q) : Qge_bool x y = true <-> (y <= x)%Q.
Proof. apply Qle_bool_iff. Qed.

Lemma Qge_bool_false (x y : Q) : Qge_bool x y = false <-> (x < y)%Q.
Proof.
  unfold Qge_bool. rewrite <- not_true_iff_false, Qle_bool_iff.
  split; [apply Qnot_le_lt | apply Qlt_not_le].
Qed.

(** Under a recognised configuration [get_score] makes one library call
    and returns its score. *)
Lemma get_score_valid (ext : Scorers) (library match_method a b : string) (n : nat) :
  config_valid library match_method = true ->
  get_score ext library match_method a b n
  = (inr (score_of ext library match_method a b), S n).
Proof.
  unfold config_valid. rewrite andb_true_iff. intros [Hl Hm].
  unfold get_score, score_of. rewrite Hl, Hm. cbn [negb].
  unfold str_in, valid_libraries in Hl. cbn [existsb] in Hl.
  destruct (String.eqb library "rapidfuzz");
    [destruct (String.eqb match_method "exact"); reflexivity|].
  destruct (String.eqb library "thefuzz");
    [destruct (String.eqb match_method "exact"); reflexivity|].
  destruct (String.eqb library "difflib");
    [destruct (String.eqb match_method "exact"); reflexivity|].
  discriminate.
Qed.

(** Under any other configuration it raises before calling a library. *)
Lemma get_score_invalid (ext : Scorers) (library match_method a b : string) (n : nat) :
  config_valid library match_method = false ->
  get_score ext library match_method a b n
  = (inl (config_error library match_method), n).
Proof.
  unfold config_valid, get_score, config_error.
  destruct (str_in library valid_libraries); cbn [negb andb]; [|reflexivity].
  now intros ->.
Qed.

(** ** The running best *)

(** The state after a list of scored targets: either no score exceeds the
    score held at the start and the state is unchanged, or the score held
    at the end is that of the first entry attaining the maximum, and this
    entry is the best match when it reaches the threshold. *)
Lemma fold_step (thr : Q) (l : list (string * Q)) :
  forall (best : option string) (h : Q),
    ((forall p, List.In p l -> (snd p <= h)%Q)
     /\ fold_left (step thr) l (best, h) = (best, h))
    \/ (exists (l1 : list (string * Q)) (t : string) (s : Q) (l2 : list (string * Q)),
           l = (l1 ++ (t, s) :: l2)%list
           /\ (h < s)%Q
           /\ (forall p, List.In p l1 -> (snd p < s)%Q)
           /\ (forall p, List.In p l2 -> (snd p <= s)%Q)
           /\ fold_left (step thr) l (best, h)
              = (if Qge_bool s thr then Some t else best, s)).
Proof.
  induction l as [|[t0 s0] l IH]; intros best h.
  - left. split; [intros p []| reflexivity].
  - cbn [fold_left]. unfold step at 2 4. cbn [fst snd update_best].
    destruct (Qgt_bool s0 h) eqn:G.
    + (* a new strict maximum *)
      apply Qgt_bool_iff in G. right.
      destruct (IH (if Qge_bool s0 thr then Some t0 else best) s0)
        as [[Hle ->] | (l1 & t & s & l2 & -> & Hlt & H1 & H2 & ->)].
      * exists [], t0, s0, l. repeat split; auto. intros p [].
      * exists ((t0, s0) :: l1), t, s, l2. repeat split; auto.
        -- eapply Qlt_trans; eauto.
        -- intros p [<- | Hp]; auto.
        -- destruct (Qge_bool s thr) eqn:T; [reflexivity|].
           apply Qge_bool_false in T.
           assert (F : Qge_bool s0 thr = false)
             by (apply Qge_bool_false; eapply Qlt_trans; eauto).
           now rewrite F.
    + (* not above the running best *)
      apply Qgt_bool_false in G.
      destruct (IH best h)
        as [[Hle ->] | (l1 & t & s & l2 & -> & Hlt & H1 & H2 & ->)].
      * left. split; [|reflexivity]. intros p [<- | Hp]; auto.
      * right. exists ((t0, s0) :: l1), t, s, l2. repeat split; auto.
        intros p [<- | Hp]; auto. eapply Qle_lt_trans; eauto.
Qed.

(** Two ways of singling out one entry of a list either agree, or each
    entry lies on the far side of the other. *)
Lemma app_cons_split {A : Type} (l1 : list A) :
  forall (l1' : list A) (a a' : A) (l2 l2' : list A),
    (l1 ++ a :: l2 = l1' ++ a' :: l2')%list ->
    (l1 = l1' /\ a = a' /\ l2 = l2')
    \/ (List.In a l1' /\ List.In a' l2)
    \/ (List.In a' l1 /\ List.In a l2').
Proof.
  induction l1 as [|x l1 IH]; intros [|x' l1'] a a' l2 l2' E; simpl in E.
  - inversion E; auto.
  - inversion E; subst. right; left. split; [now left | apply in_elt].
  - inversion E; subst. right; right. split; [now left | apply in_elt].
  - inversion E as [[Ex E']]; subst.
    destruct (IH _ _ _ _ _ E') as [(-> & -> & ->) | [[H1 H2] | [H1 H2]]]; auto.
    + right; left. split; [now right | assumption].
    + right; right. split; [now right | assumption].
Qed.

(** A best match is the first target attaining the maximal score, and
    that score is positive and reaches the threshold. *)
Lemma select_some (thr : Q) (l : list (string * Q)) (t : string) :
  select thr l = Some t ->
  exists m, first_attaining l m t /\ (0 < m)%Q /\ (thr <= m)%Q.
Proof.
  unfold select.
  destruct (fold_step thr l None 0%Q)
    as [[_ ->] | (l1 & t' & s & l2 & -> & Hpos & H1 & H2 & ->)];
    [discriminate|].
  cbn [fst]. destruct (Qge_bool s thr) eqn:T; [|discriminate].
  intros [= ->]. apply Qge_bool_iff in T.
  exists s. split; [|now split].
  exists l1, s, l2. repeat split; auto.
Qed.

(** Conversely, the first target attaining a maximal score that is
    positive and reaches the threshold is the best match. *)
Lemma select_first (thr : Q) (l : list (string * Q)) (m : Q) (t : string) :
  first_attaining l m t -> (0 < m)%Q -> (thr <= m)%Q -> select thr l = Some t.
Proof.
  intros (l1 & s & l2 & El & Es & H1 & H2) Hpos Hthr. unfold select.
  destruct (fold_step thr l None 0%Q)
    as [[Hle _] | (l1' & t' & s' & l2' & El' & Hpos' & H1' & H2' & ->)].
  - exfalso. assert (Hs : (s <= 0)%Q).
    { apply (Hle (t, s)). rewrite El. apply in_elt. }
    rewrite Es in Hs. now apply (Qlt_not_le _ _ Hpos).
  - cbn [fst]. rewrite El in El'.
    destruct (app_cons_split _ _ _ _ _ _ El')
      as [(_ & E & _) | [[Ha Hb] | [Ha Hb]]].
    + inversion E; subst t' s'.
      assert (T : Qge_bool s thr = true)
        by (apply Qge_bool_iff; now rewrite Es).
      now rewrite T.
    + exfalso. specialize (H1' _ Ha). specialize (H2 _ Hb). cbn [snd] in *.
      rewrite <- Es in H2. now apply (Qlt_not_le _ _ H1').
    + exfalso. specialize (H1 _ Ha). specialize (H2' _ Hb). cbn [snd] in *.
      rewrite <- Es in H1. now apply (Qlt_not_le _ _ H1).
Qed.

(** Without a considered target nothing is selected. *)
Lemma select_nil (thr : Q) : select thr [] = None.
Proof. reflexivity. Qed.

(** ** The two loops *)

Section Loops.

Variables (ext : Scorers) (library match_method : string)
          (similarity_threshold : Q) (normalization_pattern : Re.regex)
          (filename_mode : bool).

Local Abbreviation inner := (inner_loop ext library match_method similarity_threshold
                              normalization_pattern filename_mode).
Local Abbreviation outer := (outer_loop ext library match_method similarity_threshold
                              normalization_pattern filename_mode).

(** The test that skips a target is the negation of [considered]. *)
Lemma skip_considered (t : string) :
  filename_mode && negb (is_valid_filename t "windows")
  = negb (considered filename_mode t).
Proof.
  unfold considered. now destruct filename_mode, (is_valid_filename t "windows").
Qed.

(** Under a recognised configuration the inner loop returns the running
    best over the considered targets, after one library call for each. *)
Lemma inner_loop_valid (normalized_name : string) (target_list : list string) :
  config_valid library match_method = true ->
  forall (st : best_state) (n : nat),
    inner normalized_name target_list st n
    = (inr (fold_left (step similarity_threshold)
              (scored_against ext library match_method normalization_pattern
                              filename_mode normalized_name target_list) st),
       n + List.length (candidates filename_mode target_list)).
Proof.
  intros V. unfold scored_against, candidates.
  induction target_list as [|t ts IH]; intros st n; cbn [inner_loop List.filter].
  - cbn. now rewrite Nat.add_0_r.
  - rewrite skip_considered. destruct (considered filename_mode t); cbn [negb].
    + unfold bind. rewrite (get_score_valid _ _ _ _ _ _ V), IH.
      cbn [List.map fold_left List.length]. f_equal. lia.
    + apply IH.
Qed.

(** Under any other configuration it raises at the first considered
    target, and returns its state untouched when there is none; no
    library is called. *)
Lemma inner_loop_invalid (normalized_name : string) (target_list : list string) :
  config_valid library match_method = false ->
  forall (st : best_state) (n : nat),
    inner normalized_name target_list st n
    = match candidates filename_mode target_list with
      | [] => (inr st, n)
      | _ :: _ => (inl (config_error library match_method), n)
      end.
Proof.
  intros V. unfold candidates.
  induction target_list as [|t ts IH]; intros st n; cbn [inner_loop List.filter].
  - reflexivity.
  - rewrite skip_considered. destruct (considered filename_mode t); cbn [negb].
    + unfold bind. now rewrite (get_score_invalid _ _ _ _ _ _ V).
    + apply IH.
Qed.

Lemma outer_loop_valid (target_list : list string) :
  config_valid library match_method = true ->
  forall (base_list : list string)
         (matched_results : list match_record) (unmatched_names : list string)
         (n : nat),
    outer base_list target_list matched_results unmatched_names n
    = (inr ((matched_results
              ++ matches_of ext library match_method similarity_threshold
                   normalization_pattern filename_mode target_list base_list)%list,
            (unmatched_names
              ++ unmatched_of ext library match_method similarity_threshold
                   normalization_pattern filename_mode target_list base_list)%list),
       n + List.length base_list
           * List.length (candidates filename_mode target_list)).
Proof.
  intros V. induction base_list as [|b bs IH]; intros ms us n.
  - cbn. now rewrite !app_nil_r, Nat.add_0_r.
  - cbn [outer_loop]. unfold bind at 1. rewrite (inner_loop_valid _ _ V).
    cbn [fst matches_of unmatched_of flat_map List.filter List.length].
    unfold is_matched, record_of, best_for, select, scored.
    fold (matches_of ext library match_method similarity_threshold
            normalization_pattern filename_mode target_list).
    fold (unmatched_of ext library match_method similarity_threshold
            normalization_pattern filename_mode target_list).
    match goal with |- context [fst ?x] => destruct (fst x) as [t|] end;
      cbn [best_truthy negb];
      [destruct (Str.truthy t); cbn [negb]|];
      rewrite IH, <- ?app_assoc; cbn [app]; f_equal; lia.
Qed.

Lemma outer_loop_invalid (target_list : list string) :
  config_valid library match_method = false ->
  forall (base_list : list string)
         (matched_results : list match_record) (unmatched_names : list string)
         (n : nat),
    outer base_list target_list matched_results unmatched_names n
    = match base_list, candidates filename_mode target_list with
      | _ :: _, _ :: _ => (inl (config_error library match_method), n)
      | _, _ => (inr (matched_results, (unmatched_names ++ base_list)%list), n)
      end.
Proof.
  intros V. induction base_list as [|b bs IH]; intros ms us n.
  - cbn. now rewrite app_nil_r.
  - cbn [outer_loop]. unfold bind at 1. rewrite (inner_loop_invalid _ _ V).
    destruct (candidates filename_mode target_list) eqn:C; [|reflexivity].
    cbn [fst]. rewrite IH, <- app_assoc. cbn [app]. now destruct bs.
Qed.

End Loops.

(** ** The matcher *)

Section Matcher.

Variables (ext : Scorers) (library match_method : string)
          (similarity_threshold : Q) (normalization_pattern : Re.regex)
          (filename_mode : bool).

Local Abbreviation run := (fun base_list target_list =>
  string_matching ext base_list target_list library match_method
                  similarity_threshold normalization_pattern filename_mode).
Local Abbreviation scores := (scored ext library match_method
                                 normalization_pattern filename_mode).
Local Abbreviation best := (best_for ext library match_method
                              similarity_threshold normalization_pattern
                              filename_mode).
Local Abbreviation matched_b := (is_matched ext library match_method
                              similarity_threshold normalization_pattern
                              filename_mode).
Local Abbreviation matches := (matches_of ext library match_method
                              similarity_threshold normalization_pattern
                              filename_mode).
Local Abbreviation unmatched_f := (unmatched_of ext library match_method
                              similarity_threshold normalization_pattern
                              filename_mode).

Lemma string_matching_valid (base_list target_list : list string) (n : nat) :
  config_valid library match_method = true ->
  run base_list target_list n
  = (inr (matches target_list base_list, unmatched_f target_list base_list),
     n + List.length base_list
         * List.length (candidates filename_mode target_list)).
Proof.
  intros V. unfold string_matching. now rewrite (outer_loop_valid _ _ _ _ _ _ _ V).
Qed.

Lemma string_matching_invalid (base_list target_list : list string) (n : nat) :
  config_valid library match_method = false ->
  run base_list target_list n
  = match base_list, candidates filename_mode target_list with
    | _ :: _, _ :: _ => (inl (config_error library match_method), n)
    | _, _ => (inr ([], base_list), n)
    end.
Proof.
  intros V. unfold string_matching. now rewrite (outer_loop_invalid _ _ _ _ _ _ _ V).
Qed.

(** The records of the matched base names. *)
Lemma in_matches (target_list base_list : list string) (r : match_record) :
  List.In r (matches target_list base_list)
  <-> List.In (name r) base_list
      /\ best target_list (name r) = Some (matched_name r)
      /\ Str.truthy (matched_name r) = true.
Proof.
  unfold matches_of. rewrite in_flat_map. unfold record_of. split.
  - intros (b & Hb & Hr). destruct (best target_list b) as [t|] eqn:B; [|destruct Hr].
    destruct (Str.truthy t) eqn:T; [|destruct Hr].
    destruct Hr as [<- | []]. cbn. auto.
  - intros (Hb & B & T). exists (name r). split; [assumption|].
    rewrite B, T. left. now destruct r.
Qed.

Lemma names_of_matches (target_list base_list : list string) :
  List.map name (matches target_list base_list)
  = List.filter (matched_b target_list) base_list.
Proof.
  unfold matches_of, is_matched, record_of.
  induction base_list as [|b bs IH]; [reflexivity|].
  cbn [flat_map List.filter]. rewrite map_app, IH.
  destruct (best target_list b) as [t|]; [|reflexivity].
  cbn [best_truthy]. now destruct (Str.truthy t).
Qed.

Lemma filter_lengths {A : Type} (p : A -> bool) (l : list A) :
  List.length (List.filter p l) + List.length (List.filter (fun x => negb (p x)) l)
  = List.length l.
Proof.
  induction l as [|x l IH]; [reflexivity|]. cbn [List.filter].
  destruct (p x); cbn [negb List.length]; lia.
Qed.

(** Whenever [string_matching] returns, it has split the base names by
    one test. *)
Lemma string_matching_split (base_list target_list : list string)
      (n n' : nat) (matched : list match_record) (unmatched : list string) :
  run base_list target_list n = (inr (matched, unmatched), n') ->
  exists sel : string -> bool,
    List.map name matched = List.filter sel base_list
    /\ unmatched = List.filter (fun b => negb (sel b)) base_list.
Proof.
  destruct (config_valid library match_method) eqn:V.
  - rewrite (string_matching_valid _ _ _ V). intros [= <- <- _].
    exists (matched_b target_list). split; [apply names_of_matches | reflexivity].
  - rewrite (string_matching_invalid _ _ _ V). intros E.
    assert (matched = [] /\ unmatched = base_list) as [-> ->].
    { destruct base_list, (candidates filename_mode target_list);
        inversion E; auto. }
    clear E. exists (fun _ => false). cbn [negb]. split.
    + induction base_list as [|b bs IH]; cbn; auto.
    + induction base_list as [|b bs IH]; cbn; [|rewrite <- IH]; auto.
Qed.

(** Whenever it returns records, the configuration was recognised and the
    records are those of the matched base names. *)
Lemma string_matching_records (base_list target_list : list string)
      (n n' : nat) (matched : list match_record) (unmatched : list string)
      (r : match_record) :
  run base_list target_list n = (inr (matched, unmatched), n') ->
  List.In r matched ->
  config_valid library match_method = true
  /\ List.In (name r) base_list
  /\ best target_list (name r) = Some (matched_name r)
  /\ Str.truthy (matched_name r) = true.
Proof.
  destruct (config_valid library match_method) eqn:V.
  - rewrite (string_matching_valid _ _ _ V). intros [= <- <- _] Hr.
    split; [reflexivity | now apply in_matches].
  - rewrite (string_matching_invalid _ _ _ V). intros E Hr. exfalso.
    destruct base_list, (candidates filename_mode target_list);
      inversion E; subst; destruct Hr.
Qed.

End Matcher.

(** ** Unrecognised configurations *)




(** ** The partition of the base names *)

(** C2 (partition): whenever [string_matching] returns, every base name is
    in exactly one of the two results, as the name of a record or as an
    unmatched name, and the two lengths add up to that of the base list. *)
Theorem string_matching_partition
        (ext : Scorers) (base_list target_list : list string)
        (library match_method : string) (similarity_threshold : Q)
        (normalization_pattern : Re.regex) (filename_mode : bool) (n n' : nat)
        (matched : list match_record) (unmatched : list string) :
  string_matching ext base_list target_list library match_method
                  similarity_threshold normalization_pattern filename_mode n
  = (inr (matched, unmatched), n') ->
  List.length matched + List.length unmatched = List.length base_list
  /\ (forall b, List.In b base_list
                <-> List.In b (List.map name matched) \/ List.In b unmatched)
  /\ (forall b, ~ (List.In b (List.map name matched) /\ List.In b unmatched))
  /\ (forall b, count_occ string_dec (List.map name matched) b
                + count_occ string_dec unmatched b
                = count_occ string_dec base_list b).
Proof.
  intros E. destruct (string_matching_split _ _ _ _ _ _ _ _ _ _ _ _ E)
    as (sel & Hm & ->).
  rewrite <- (length_map name matched), Hm. repeat split.
  - apply filter_lengths.
  - intros Hb. destruct (sel b) eqn:S; [left | right];
      apply filter_In; rewrite ?S; auto.
  - intros [H | H]; now apply filter_In in H.
  - intros b [H1 H2]. apply filter_In in H1 as [_ H1], H2 as [_ H2].
    rewrite H1 in H2. discriminate.
  - intros b. clear E Hm. induction base_list as [|x l IH]; [reflexivity|].
    cbn [List.filter count_occ].
    destruct (sel x); cbn [negb count_occ]; destruct (string_dec x b); lia.
Qed.

Lemma string_matching_partition_witness :
  List.length [{| name := "Mario"; matched_name := "mario.nes" |}]
  + List.length ["zelda"] = List.length ["Mario"; "zelda"]
  /\ (forall b, List.In b ["Mario"; "zelda"]
                <-> List.In b (List.map name
                         [{| name := "Mario"; matched_name := "mario.nes" |}])
                    \/ List.In b ["zelda"])
  /\ (forall b, ~ (List.In b (List.map name
                         [{| name := "Mario"; matched_name := "mario.nes" |}])
                   /\ List.In b ["zelda"]))
  /\ (forall b, count_occ string_dec
                  (List.map name [{| name := "Mario"; matched_name := "mario.nes" |}]) b
                + count_occ string_dec ["zelda"] b
                = count_occ string_dec ["Mario"; "zelda"] b).
Proof.
  exact (string_matching_partition
           equality_scorers ["Mario"; "zelda"] ["mario.nes"; "MARIO.zip"; "x"]
           "rapidfuzz" "exact" 80 default_pattern true 0 6
           [{| name := "Mario"; matched_name := "mario.nes" |}] ["zelda"]
           eq_refl).
Defined.

(** ** The matched name *)

(** C8 (the matched name is verbatim): whenever [string_matching] returns,
    the matched name of every record is an element of the target list as it
    was passed in, one that is considered, and the record's name is an
    element of the base list. *)
Theorem matched_name_verbatim
        (ext : Scorers) (base_list target_list : list string)
        (library match_method : string) (similarity_threshold : Q)
        (normalization_pattern : Re.regex) (filename_mode : bool) (n n' : nat)
        (matched : list match_record) (unmatched : list string) :
  string_matching ext base_list target_list library match_method
                  similarity_threshold normalization_pattern filename_mode n
  = (inr (matched, unmatched), n') ->
  forall r, List.In r matched ->
            List.In (matched_name r) target_list
            /\ considered filename_mode (matched_name r) = true
            /\ List.In (name r) base_list.
Proof.
  intros E r Hr.
  destruct (string_matching_records _ _ _ _ _ _ _ _ _ _ _ _ _ E Hr)
    as (_ & Hb & B & _).
  destruct (select_some _ _ _ B) as (m & (l1 & s & l2 & El & _) & _).
  assert (Hin : List.In (matched_name r)
                  (List.map fst (scored ext library match_method
                                   normalization_pattern filename_mode
                                   (name r) target_list))).
  { rewrite El, map_app. apply in_or_app. right. now left. }
  unfold scored, scored_against in Hin. rewrite map_map in Hin. cbn [fst] in Hin.
  rewrite map_id in Hin. apply filter_In in Hin. tauto.
Qed.

Lemma matched_name_verbatim_witness :
  List.In "Super Mario Bros. (USA).nes"
          ["Zelda (USA).nes"; "Super Mario Bros. (USA).nes"]
  /\ considered true "Super Mario Bros. (USA).nes" = true
  /\ List.In "super mario bros (usa)" ["super mario bros (usa)"].
Proof.
  exact (matched_name_verbatim
           equality_scorers ["super mario bros (usa)"]
           ["Zelda (USA).nes"; "Super Mario Bros. (USA).nes"]
           "rapidfuzz" "exact" 80 default_pattern true 0 2
           [{| name := "super mario bros (usa)";
               matched_name := "Super Mario Bros. (USA).nes" |}] []
           eq_refl
           {| name := "super mario bros (usa)";
              matched_name := "Super Mario Bros. (USA).nes" |}
           (or_introl eq_refl)).
Defined.

(** ** Which target wins *)

(** A scored target is a considered element of the target list. *)
Lemma scored_candidate (ext : Scorers) (library match_method : string)
      (normalization_pattern : Re.regex) (filename_mode : bool)
      (base_name : string) (target_list : list string) (p : string * Q) :
  List.In p (scored ext library match_method normalization_pattern
                    filename_mode base_name target_list) ->
  List.In (fst p) (candidates filename_mode target_list).
Proof.
  unfold scored, scored_against. rewrite in_map_iff.
  intros (t & <- & Ht). exact Ht.
Qed.

Lemma truthy_nonempty (t : string) : Str.truthy t = true <-> t <> "".
Proof. destruct t; cbn; split; (congruence || discriminate || auto). Qed.

(** A base name is reported as matched exactly when the first target
    attaining the maximal score is a non-empty string and that score is
    positive and reaches the threshold. *)
Lemma is_matched_iff (ext : Scorers) (library match_method : string)
      (similarity_threshold : Q) (normalization_pattern : Re.regex)
      (filename_mode : bool) (target_list : list string) (b : string) :
  is_matched ext library match_method similarity_threshold
             normalization_pattern filename_mode target_list b = true
  <-> exists m t,
      first_attaining (scored ext library match_method normalization_pattern
                              filename_mode b target_list) m t
      /\ (0 < m)%Q /\ (similarity_threshold <= m)%Q /\ t <> "".
Proof.
  unfold is_matched, best_for. split.
  - destruct (select _ _) as [t|] eqn:B; [|discriminate]. cbn [best_truthy].
    intros T. destruct (select_some _ _ _ B) as (m & F & Hpos & Hthr).
    exists m, t. repeat split; auto. now apply truthy_nonempty.
  - intros (m & t & F & Hpos & Hthr & Ht).
    rewrite (select_first _ _ _ _ F Hpos Hthr). now apply truthy_nonempty.
Qed.

(** C3 (ties go to the first target): the running best is replaced on a
    strictly greater score only, so the matched name of every record is the
    first target, in the order of the target list, that attains the
    maximal score of its base name; with the target list [b; a], both
    scoring 100, the matched name is [b]. *)
Theorem tie_break_first_target
        (ext : Scorers) (base_list target_list : list string)
        (library match_method : string) (similarity_threshold : Q)
        (normalization_pattern : Re.regex) (filename_mode : bool) (n n' : nat)
        (matched : list match_record) (unmatched : list string) :
  string_matching ext base_list target_list library match_method
                  similarity_threshold normalization_pattern filename_mode n
  = (inr (matched, unmatched), n') ->
  (forall r, List.In r matched ->
     exists m, first_attaining
                 (scored ext library match_method normalization_pattern
                         filename_mode (name r) target_list)
                 m (matched_name r))
  /\ (target_list = ["b"; "a"] ->
      config_valid library match_method = true ->
      (similarity_threshold <= 100)%Q ->
      forall b, List.In b base_list ->
        (forall p, List.In p (scored ext library match_method
                                normalization_pattern filename_mode b target_list) ->
                   (snd p == 100)%Q) ->
        List.In {| name := b; matched_name := "b" |} matched).
Proof.
  intros E. split.
  - intros r Hr.
    destruct (string_matching_records _ _ _ _ _ _ _ _ _ _ _ _ _ E Hr)
      as (_ & _ & B & _).
    destruct (select_some _ _ _ B) as (m & F & _). now exists m.
  - intros -> V Hthr b Hb Hs.
    rewrite (string_matching_valid _ _ _ _ _ _ _ _ _ V) in E.
    injection E as <- _ _. apply in_matches. cbn [name matched_name].
    repeat split; auto. unfold best_for.
    apply (select_first _ _ 100%Q); [|reflexivity | assumption].
    revert Hs. unfold scored, scored_against.
    replace (candidates filename_mode ["b"; "a"]) with ["b"; "a"]
      by (now destruct filename_mode).
    cbn [List.map]. intros Hs.
    eexists [], _, [_]. repeat split.
    + apply (Hs ("b", _)). now left.
    + intros p [].
    + intros p [<- | []]. apply Qle_lteq. right. apply Hs. right. now left.
Qed.

Lemma tie_break_first_target_witness :
  List.In {| name := "x"; matched_name := "b" |}
          [{| name := "x"; matched_name := "b" |}].
Proof.
  refine (proj2 (tie_break_first_target
                   constant_scorers ["x"] ["b"; "a"] "rapidfuzz" "exact" 80
                   default_pattern true 0 2
                   [{| name := "x"; matched_name := "b" |}] [] eq_refl)
                eq_refl eq_refl _ "x" (or_introl eq_refl) _).
  - discriminate.
  - intros p [<- | [<- | []]]; reflexivity.
Defined.

(** ** The threshold *)

(** C4, as amended (the threshold is inclusive on a new maximum): a target
    whose score equals the threshold becomes the best match when that score
    is strictly greater than the running highest score, which starts at 0;
    a target scoring strictly below the threshold never becomes the best
    match, so the pair of every record reaches the threshold. *)
Theorem threshold_inclusive_on_new_maximum
        (ext : Scorers) (base_list target_list : list string)
        (library match_method : string) (similarity_threshold : Q)
        (normalization_pattern : Re.regex) (filename_mode : bool) (n n' : nat)
        (matched : list match_record) (unmatched : list string) :
  string_matching ext base_list target_list library match_method
                  similarity_threshold normalization_pattern filename_mode n
  = (inr (matched, unmatched), n') ->
  (forall t s best h,
      (s == similarity_threshold)%Q -> (h < s)%Q ->
      update_best similarity_threshold t s (best, h) = (Some t, s))
  /\ (forall t s best h,
         (s < similarity_threshold)%Q ->
         fst (update_best similarity_threshold t s (best, h)) = best)
  /\ (forall r, List.In r matched ->
        exists s, List.In (matched_name r, s)
                    (scored ext library match_method normalization_pattern
                            filename_mode (name r) target_list)
                  /\ (similarity_threshold <= s)%Q)
  /\ (config_valid library match_method = true ->
      forall b t m,
        List.In b base_list ->
        first_attaining (scored ext library match_method normalization_pattern
                                filename_mode b target_list) m t ->
        (m == similarity_threshold)%Q -> (0 < m)%Q -> t <> "" ->
        List.In {| name := b; matched_name := t |} matched).
Proof.
  intros E. repeat split.
  - intros t s best h Hs Hh. cbn [update_best].
    assert (G : Qgt_bool s h = true) by now apply Qgt_bool_iff.
    assert (T : Qge_bool s similarity_threshold = true)
      by (apply Qge_bool_iff; rewrite Hs; apply Qle_refl).
    now rewrite G, T.
  - intros t s best h Hs. cbn [update_best].
    assert (T : Qge_bool s similarity_threshold = false)
      by now apply Qge_bool_false.
    rewrite T. now destruct (Qgt_bool s h).
  - intros r Hr.
    destruct (string_matching_records _ _ _ _ _ _ _ _ _ _ _ _ _ E Hr)
      as (_ & _ & B & _).
    destruct (select_some _ _ _ B)
      as (m & (l1 & s & l2 & El & Es & _) & _ & Hthr).
    exists s. split; [rewrite El; apply in_elt | now rewrite Es].
  - intros V b t m Hb F Hm Hpos Ht.
    rewrite (string_matching_valid _ _ _ _ _ _ _ _ _ V) in E.
    injection E as <- _ _. apply in_matches. cbn [name matched_name].
    repeat split; [assumption | | now apply truthy_nonempty].
    unfold best_for. apply (select_first _ _ m); auto.
    rewrite Hm. apply Qle_refl.
Qed.

Lemma threshold_inclusive_on_new_maximum_witness :
  List.In {| name := "mario"; matched_name := "Mario.nes" |}
          [{| name := "mario"; matched_name := "Mario.nes" |}].
Proof.
  refine (proj2 (proj2 (proj2 (threshold_inclusive_on_new_maximum
                   equality_scorers ["mario"] ["zelda.nes"; "Mario.nes"]
                   "rapidfuzz" "exact" 100 default_pattern true 0 2
                   [{| name := "mario"; matched_name := "Mario.nes" |}] []
                   eq_refl)))
                eq_refl "mario" "Mario.nes" 100%Q (or_introl eq_refl) _ _ _ _).
  - exists [("zelda.nes", 0%Q)], 100%Q, []. repeat split.
    + intros p [<- | []]. reflexivity.
    + intros p [].
  - reflexivity.
  - reflexivity.
  - discriminate.
Defined.

(** C4 as stated fails at the threshold 0: the only target scores 0, which
    equals the threshold, and is not accepted, because 0 does not exceed the
    initial highest score. *)
Lemma threshold_zero_not_accepted :
  scored equality_scorers "rapidfuzz" "exact" default_pattern false "a" ["b"]
  = [("b", 0%Q)]
  /\ update_best 0 "b" 0 (None, 0%Q) = (None, 0%Q)
  /\ string_matching equality_scorers ["a"] ["b"] "rapidfuzz" "exact" 0
                     default_pattern false 0
     = (inr ([], ["a"]), 1).
Proof. repeat split. Qed.

(** ** When a base name is matched *)




(** ** The partial method *)

Lemma best_of_le (m : Q) (l : list Q) :
  (0 <= m)%Q -> (forall x, List.In x l -> (x <= m)%Q) -> (best_of l <= m)%Q.
Proof.
  intros H0. induction l as [|x l IH]; intros H; cbn; [assumption|].
  fold (best_of l). destruct (Qle_bool (best_of l) x); [apply H; now left|].
  apply IH. intros y Hy. apply H. now right.
Qed.

Lemma best_of_ge (l : list Q) (x : Q) : List.In x l -> (x <= best_of l)%Q.
Proof.
  induction l as [|y l IH]; intros []; cbn; fold (best_of l).
  - subst y. destruct (Qle_bool (best_of l) x) eqn:B; [apply Qle_refl|].
    apply Qlt_le_weak, Qnot_le_lt. intros H. apply Qle_bool_iff in H. congruence.
  - destruct (Qle_bool (best_of l) y) eqn:B; [|now apply IH].
    apply Qle_bool_iff in B. eapply Qle_trans; [now apply IH | exact B].
Qed.

(** For the library [difflib] the partial method is [quick_ratio], for
    every pair. *)
Lemma get_score_difflib_partial (ext : Scorers) (a b : string) (n : nat) :
  get_score ext "difflib" "partial" a b n
  = (inr (Difflib.quick_ratio a b * 100)%Q, S n).
Proof. reflexivity. Qed.

(** C9 (the partial method is the best window similarity) fails for the
    library [difflib]: the name [ab] occurs in [xxabxx], so the best
    similarity of [ab] against a window of length 2 is 100 for any
    similarity that rates identical strings 100 and nothing above, while
    [get_score] returns 50, the value of [quick_ratio]. *)
Theorem difflib_partial_is_not_best_window (ext : Scorers) :
  (score_of ext "difflib" "exact" "ab" "ab" == 100)%Q ->
  (forall w, (score_of ext "difflib" "exact" "ab" w <= 100)%Q) ->
  exists q,
    get_score ext "difflib" "partial" "ab" "xxabxx" 0 = (inr q, 1)
    /\ (q == 50)%Q
    /\ (best_window_similarity (score_of ext "difflib" "exact") "ab" "xxabxx"
        == 100)%Q.
Proof.
  intros Hsame Hle. exists (Difflib.quick_ratio "ab" "xxabxx" * 100)%Q.
  refine (conj eq_refl (conj eq_refl _)).
  unfold best_window_similarity. cbn [String.length Nat.leb windows Str.take].
  apply Qle_antisym.
  - apply best_of_le; [discriminate|].
    intros x Hx. apply in_map_iff in Hx as (w & <- & _). apply Hle.
  - rewrite <- Hsame. apply best_of_ge, in_map_iff.
    exists "ab". split; [reflexivity|]. cbn. tauto.
Qed.

Lemma difflib_partial_is_not_best_window_witness :
  exists q,
    get_score equality_scorers "difflib" "partial" "ab" "xxabxx" 0 = (inr q, 1)
    /\ (q == 50)%Q
    /\ (best_window_similarity (score_of equality_scorers "difflib" "exact")
                               "ab" "xxabxx" == 100)%Q.
Proof.
  apply (difflib_partial_is_not_best_window equality_scorers).
  - reflexivity.
  - intros w.
    change (score_of equality_scorers "difflib" "exact" "ab" w)
      with ((if String.eqb "ab" w then 1 else 0) * 100)%Q.
    destruct (String.eqb "ab" w); discriminate.
Defined.


(** * Further properties of the helpers *)

(** ** [normalize_string] *)

Lemma filter_app (p : ascii -> bool) (s1 s2 : string) :
  Str.filter p (s1 ++ s2) = Str.filter p s1 ++ Str.filter p s2.
Proof.
  induction s1 as [|c s1 IH]; cbn; [reflexivity|].
  destruct (p c); cbn; now rewrite IH.
Qed.

Lemma filter_In_iff (p : ascii -> bool) (s : string) (c : ascii) :
  Str.In c (Str.filter p s) <-> Str.In c s /\ p c = true.
Proof.
  induction s as [|d s IH]; cbn; [tauto|].
  destruct (p d) eqn:E; cbn; rewrite IH; intuition (subst; congruence).
Qed.

Lemma lower_In (s : string) (c : ascii) :
  Str.In c (Str.lower s) -> Str.lower_char c = c.
Proof.
  induction s as [|d s IH]; cbn; [tauto|].
  intros [<- | H]; [apply lower_char_idem | auto].
Qed.



(** X2 (what survives normalisation): every character of the normalised
    string lies outside the class of the pattern and is its own lower-case
    form; under the default pattern it is a letter a-z or a digit 0-9. *)
Theorem normalize_string_characters (s : string) (pattern : Re.regex) (c : ascii) :
  Str.In c (normalize_string s pattern) ->
  Re.class_matches (Re.class_of pattern) c = false
  /\ Str.lower_char c = c
  /\ (pattern = default_pattern ->
      (97 <= nat_of_ascii c <= 122) \/ (48 <= nat_of_ascii c <= 57)).
Proof.
  unfold normalize_string. rewrite sub_empty_filter, filter_In_iff.
  intros [Hc Hp]. apply negb_true_iff in Hp. repeat split.
  - exact Hp.
  - now apply (lower_In s).
  - intros ->.
    change (negb (((97 <=? nat_of_ascii c)%nat && (nat_of_ascii c <=? 122)%nat)
                  || (((48 <=? nat_of_ascii c)%nat && (nat_of_ascii c <=? 57)%nat)
                      || false)) = false) in Hp.
    revert Hp.
    rewrite negb_false_iff, orb_false_r, orb_true_iff, !andb_true_iff,
      !Nat.leb_le.
    tauto.
Qed.

Lemma normalize_string_characters_witness :
  Re.class_matches (Re.class_of default_pattern) "2" = false
  /\ Str.lower_char "2" = "2"%char
  /\ (default_pattern = default_pattern ->
      (97 <= nat_of_ascii "2" <= 122) \/ (48 <= nat_of_ascii "2" <= 57)).
Proof.
  apply (normalize_string_characters "Bros. 2 (USA)" default_pattern "2").
  change (Str.In "2" "bros2usa"). cbn [Str.In]. do 4 right. now left.
Defined.

(** ** [remove_extension] *)

Lemma split_components (sep : ascii) (s : string) (w : string) :
  List.In w (Str.split sep s) -> Str.mem sep w = false.
Proof.
  revert w. induction s as [|d s IH]; cbn; intros w.
  - intros [<- | []]. reflexivity.
  - destruct (Ascii.eqb d sep) eqn:E.
    + intros [<- | H]; [reflexivity | now apply IH].
    + destruct (Str.split sep s) as [|w0 ws].
      * intros [<- | []]. cbn. now rewrite E.
      * intros [<- | H].
        -- cbn. rewrite E. apply IH. now left.
        -- apply IH. now right.
Qed.

Lemma path_name_no_slash (s : string) : Str.mem "/" (path_name s) = false.
Proof.
  unfold path_name, path_parts.
  set (l := List.filter _ _).
  assert (H : forall w, List.In w l -> Str.mem "/" w = false).
  { intros w Hw. apply filter_In in Hw as [Hw _].
    now apply (split_components "/" s). }
  clearbody l. induction l as [|w l IH]; [reflexivity|].
  destruct l as [|w' l]; [apply H; now left|].
  change (List.last (w :: w' :: l) "") with (List.last (w' :: l) "").
  apply IH. intros x Hx. apply H. now right.
Qed.

Lemma take_drop (n : nat) (s : string) : s = Str.take n s ++ Str.drop n s.
Proof.
  revert s. induction n as [|n IH]; intros [|c s]; cbn; try reflexivity.
  now rewrite <- IH.
Qed.

Lemma mem_app (c : ascii) (s1 s2 : string) :
  Str.mem c (s1 ++ s2) = Str.mem c s1 || Str.mem c s2.
Proof.
  induction s1 as [|d s1 IH]; cbn; [reflexivity|].
  now rewrite IH, orb_assoc.
Qed.

(** X3 (the stem is a slash-free prefix of the final component): for every
    input, [remove_extension] returns a string without a slash that is a
    prefix of the final path component of the input. *)
Theorem remove_extension_component (filename : string) :
  Str.mem "/" (remove_extension filename) = false
  /\ exists suffix, path_name filename = remove_extension filename ++ suffix.
Proof.
  pose proof (path_name_no_slash filename) as N.
  unfold remove_extension, path_stem.
  destruct (_ && _)%bool.
  - split.
    + rewrite (take_drop (Z.to_nat (Str.rfind "." (path_name filename)))
                         (path_name filename)), mem_app in N.
      now apply orb_false_iff in N.
    + eexists. apply take_drop.
  - split; [exact N|]. exists "". clear N.
    induction (path_name filename) as [|c s IH]; cbn; congruence.
Qed.

(** ** [is_valid_filename] *)

(** X4 (rules other than the two named ones, and how the two compare): an
    [os_type] other than [windows] and [unix] accepts every name; a name
    accepted under [windows] is accepted under [unix] unless it holds the
    NUL character, which the rule [windows] does not look for. *)
Theorem is_valid_filename_rules (filename os_type : string) :
  (os_type <> "windows" -> os_type <> "unix" ->
   is_valid_filename filename os_type = true)
  /\ (is_valid_filename filename "windows" = true ->
      Str.mem "000" filename = false ->
      is_valid_filename filename "unix" = true)
  /\ is_valid_filename (String "000" filename) "windows"
     = is_valid_filename filename "windows".
Proof.
  repeat split.
  - intros Hw Hu. unfold is_valid_filename.
    apply String.eqb_neq in Hw, Hu. now rewrite Hw, Hu.
  - intros Hw Hn. unfold is_valid_filename in *.
    change (String.eqb "windows" "windows") with true in Hw.
    change (String.eqb "unix" "unix") with true.
    change (String.eqb "windows" "unix") with false in Hw.
    rewrite search_one_of in Hw. cbn [andb] in *. rewrite Hn, orb_false_r.
    destruct (Str.any (Re.class_matches windows_illegal) filename) eqn:A;
      [discriminate|].
    destruct (Str.mem "/" filename) eqn:S; [|reflexivity].
    apply not_true_iff_false in A. exfalso. apply A, any_exists.
    exists "/"%char. split; [now apply mem_In | reflexivity].
Qed.

(** * Further properties of the matcher *)

(** ** [get_score] *)

(** X5 (the outcomes of [get_score]): with a recognised library and method
    it returns a score after exactly one library call; otherwise it raises
    [ValueError] before any library call, naming the library when the
    library is unrecognised and the method only when the library is
    recognised.  It never runs off its last [elif]. *)
Theorem get_score_outcomes
        (ext : Scorers) (library match_method a b : string) (n : nat) :
  (str_in library valid_libraries = true
   /\ str_in match_method valid_methods = true
   /\ get_score ext library match_method a b n
      = (inr (score_of ext library match_method a b), S n))
  \/ (str_in library valid_libraries = true
      /\ str_in match_method valid_methods = false
      /\ get_score ext library match_method a b n
         = (inl (method_error match_method), n))
  \/ (str_in library valid_libraries = false
      /\ get_score ext library match_method a b n
         = (inl (library_error library), n)).
Proof.
  destruct (str_in library valid_libraries) eqn:L.
  - destruct (str_in match_method valid_methods) eqn:Me.
    + left. repeat split. apply get_score_valid.
      unfold config_valid. now rewrite L, Me.
    + right; left. repeat split. rewrite get_score_invalid.
      * unfold config_error. now rewrite L.
      * unfold config_valid. now rewrite L, Me.
  - right; right. split; [reflexivity|]. rewrite get_score_invalid.
    + unfold config_error. now rewrite L.
    + unfold config_valid. now rewrite L.
Qed.

(** ** [string_matching] *)

Section MatcherExtras.

Variables (ext : Scorers) (library match_method : string)
          (normalization_pattern : Re.regex) (filename_mode : bool).

Local Abbreviation run_at thr base_list target_list :=
  (string_matching ext base_list target_list library match_method
                   thr normalization_pattern filename_mode).

(** X6 (one library call per scored pair): under a recognised
    configuration the call makes exactly one library call for every pair of
    a base name and a considered target; under an unrecognised one it makes
    none, whether it raises or returns. *)
Theorem string_matching_call_count
        (similarity_threshold : Q) (base_list target_list : list string) (n : nat) :
  snd (run_at similarity_threshold base_list target_list n)
  = if config_valid library match_method
    then n + List.length base_list
             * List.length (candidates filename_mode target_list)
    else n.
Proof.
  destruct (config_valid library match_method) eqn:V.
  - now rewrite (string_matching_valid _ _ _ _ _ _ _ _ _ V).
  - rewrite (string_matching_invalid _ _ _ _ _ _ _ _ _ V).
    now destruct base_list, (candidates filename_mode target_list).
Qed.

(** X7 (base names are processed independently): under a recognised
    configuration, matching a concatenation of two base lists gives the
    concatenation of the results of matching the two lists one after the
    other. *)
Theorem string_matching_app
        (similarity_threshold : Q) (base1 base2 target_list : list string) (n : nat) :
  config_valid library match_method = true ->
  exists m1 u1 n1 m2 u2 n2,
    run_at similarity_threshold base1 target_list n = (inr (m1, u1), n1)
    /\ run_at similarity_threshold base2 target_list n1 = (inr (m2, u2), n2)
    /\ run_at similarity_threshold (base1 ++ base2)%list target_list n
       = (inr ((m1 ++ m2)%list, (u1 ++ u2)%list), n2).
Proof.
  intros V. rewrite !(string_matching_valid _ _ _ _ _ _ _ _ _ V).
  do 6 eexists. split; [reflexivity|].
  rewrite !(string_matching_valid _ _ _ _ _ _ _ _ _ V).
  split; [reflexivity|].
  unfold matches_of, unmatched_of.
  rewrite flat_map_app, List.filter_app, List.length_app. f_equal. lia.
Qed.

(** X8 (raising the threshold only removes matches): under a recognised
    configuration every record produced at a threshold is also produced at
    any lower threshold, with the same matched name, and every base name
    unmatched at the lower threshold is unmatched at the higher one. *)
Theorem threshold_monotone
        (thr1 thr2 : Q) (base_list target_list : list string) (n n1 n2 : nat)
        (m1 m2 : list match_record) (u1 u2 : list string) :
  config_valid library match_method = true ->
  (thr1 <= thr2)%Q ->
  run_at thr1 base_list target_list n = (inr (m1, u1), n1) ->
  run_at thr2 base_list target_list n = (inr (m2, u2), n2) ->
  (forall r, List.In r m2 -> List.In r m1)
  /\ (forall b, List.In b u1 -> List.In b u2).
Proof.
  intros V Hle E1 E2.
  rewrite (string_matching_valid _ _ _ _ _ _ _ _ _ V) in E1.
  rewrite (string_matching_valid _ _ _ _ _ _ _ _ _ V) in E2.
  injection E1 as <- <- _. injection E2 as <- <- _. split.
  - intros r Hr. apply in_matches in Hr as (Hb & B & T).
    apply in_matches. repeat split; auto.
    unfold best_for in *. destruct (select_some _ _ _ B) as (m & F & Hpos & Hthr).
    apply (select_first _ _ m); auto. eapply Qle_trans; eauto.
  - intros b Hb. unfold unmatched_of in *.
    apply filter_In in Hb as [Hb Hm]. apply filter_In. split; [assumption|].
    apply negb_true_iff, not_true_iff_false. apply negb_true_iff in Hm.
    intros H2. apply is_matched_iff in H2 as (m & t & F & Hpos & Hthr & Ht).
    apply not_true_iff_false in Hm. apply Hm, is_matched_iff.
    exists m, t. repeat split; auto. eapply Qle_trans; eauto.
Qed.

(** X9 (base names with one normalised form fare alike): two base names
    of the list that normalise to the same string are matched to the same
    target, or are both unmatched. *)
Theorem same_normal_form_same_match
        (similarity_threshold : Q) (base_list target_list : list string)
        (n n' : nat) (matched : list match_record) (unmatched : list string)
        (b1 b2 : string) :
  run_at similarity_threshold base_list target_list n
  = (inr (matched, unmatched), n') ->
  List.In b1 base_list -> List.In b2 base_list ->
  normalize_string b1 normalization_pattern
  = normalize_string b2 normalization_pattern ->
  (forall t, List.In {| name := b1; matched_name := t |} matched
             <-> List.In {| name := b2; matched_name := t |} matched)
  /\ (List.In b1 unmatched <-> List.In b2 unmatched).
Proof.
  intros E H1 H2 Hn.
  assert (S : scored ext library match_method normalization_pattern
                     filename_mode b1 target_list
              = scored ext library match_method normalization_pattern
                       filename_mode b2 target_list)
    by (unfold scored; now rewrite Hn).
  destruct (config_valid library match_method) eqn:V.
  - rewrite (string_matching_valid _ _ _ _ _ _ _ _ _ V) in E.
    injection E as <- <- _. split.
    + intros t. rewrite !in_matches. cbn [name matched_name].
      unfold best_for. rewrite S. tauto.
    + unfold unmatched_of. rewrite !filter_In.
      unfold is_matched, best_for. rewrite S. tauto.
  - rewrite (string_matching_invalid _ _ _ _ _ _ _ _ _ V) in E.
    assert (matched = [] /\ unmatched = base_list) as [-> ->]
      by (destruct base_list, (candidates filename_mode target_list);
          inversion E; auto).
    cbn. tauto.
Qed.

(** X10 (both results keep the order of the base list): whenever the call
    returns, the names of the records and the unmatched names are the base
    names that pass, respectively fail, one test, each in the order of the
    base list. *)
Theorem string_matching_keeps_order
        (similarity_threshold : Q) (base_list target_list : list string)
        (n n' : nat) (matched : list match_record) (unmatched : list string) :
  run_at similarity_threshold base_list target_list n
  = (inr (matched, unmatched), n') ->
  exists sel : string -> bool,
    List.map name matched = List.filter sel base_list
    /\ unmatched = List.filter (fun b => negb (sel b)) base_list.
Proof. apply string_matching_split. Qed.

End MatcherExtras.

Lemma candidates_idem (filename_mode : bool) (target_list : list string) :
  candidates filename_mode (candidates filename_mode target_list)
  = candidates filename_mode target_list.
Proof.
  unfold candidates. induction target_list as [|t ts IH]; [reflexivity|].
  cbn [List.filter]. destruct (considered filename_mode t) eqn:C; [|exact IH].
  cbn [List.filter]. now rewrite C, IH.
Qed.

(** X11 (targets that fail the filename filter have no influence): in
    filename mode the call behaves on a target list exactly as on the list
    of its valid filenames: same results, same error, same library calls. *)
Theorem invalid_filenames_ignored
        (ext : Scorers) (base_list target_list : list string)
        (library match_method : string) (similarity_threshold : Q)
        (normalization_pattern : Re.regex) (n : nat) :
  string_matching ext base_list target_list library match_method
                  similarity_threshold normalization_pattern true n
  = string_matching ext base_list
                    (List.filter (fun t => is_valid_filename t "windows") target_list)
                    library match_method
                    similarity_threshold normalization_pattern true n.
Proof.
  change (List.filter (fun t => is_valid_filename t "windows") target_list)
    with (candidates true target_list).
  destruct (config_valid library match_method) eqn:V.
  - rewrite !(string_matching_valid _ _ _ _ _ _ _ _ _ V), candidates_idem.
    unfold matches_of, unmatched_of, is_matched, record_of, best_for, scored,
      scored_against.
    now rewrite candidates_idem.
  - rewrite !(string_matching_invalid _ _ _ _ _ _ _ _ _ V).
    now rewrite candidates_idem.
Qed.

(** * Properties of the name lists on disk *)

(** ** Stripping and reading lines *)

Lemma lstrip_mem (c : ascii) (s : string) :
  Str.mem c (Text.lstrip s) = true -> Str.mem c s = true.
Proof.
  induction s as [|d s IH]; cbn [Text.lstrip]; [auto|].
  destruct (Text.is_space d); [|auto].
  intros H. cbn. rewrite (IH H). apply orb_true_r.
Qed.

Lemma rstrip_mem (c : ascii) (s : string) :
  Str.mem c (Text.rstrip s) = true -> Str.mem c s = true.
Proof.
  induction s as [|d s IH]; cbn [Text.rstrip]; [auto|].
  destruct (Text.rstrip s) as [|e r].
  - destruct (Text.is_space d); cbn; [discriminate|].
    rewrite orb_false_r. intros ->. reflexivity.
  - cbn [Str.mem] in *. rewrite !orb_true_iff in *.
    intros [H | H]; [now left | right; apply IH; assumption].
Qed.

Lemma strip_mem (c : ascii) (s : string) :
  Str.mem c s = false -> Str.mem c (Text.strip s) = false.
Proof.
  intros H. apply not_true_iff_false. intros T.
  apply lstrip_mem, rstrip_mem in T. congruence.
Qed.

Lemma rstrip_app_space (c : ascii) (x : string) :
  Text.is_space c = true ->
  Text.rstrip (x ++ String c EmptyString) = Text.rstrip x.
Proof.
  intros Hc. induction x as [|d x IH]; cbn [append Text.rstrip].
  - now rewrite Hc.
  - now rewrite IH.
Qed.

Lemma rstrip_idem (s : string) : Text.rstrip (Text.rstrip s) = Text.rstrip s.
Proof.
  induction s as [|d s IH]; cbn [Text.rstrip]; [reflexivity|].
  destruct (Text.rstrip s) as [|e r] eqn:R.
  - destruct (Text.is_space d) eqn:Sp; cbn [Text.rstrip]; [reflexivity|].
    now rewrite Sp.
  - cbn [Text.rstrip] in *. rewrite IH. reflexivity.
Qed.

(** A string without trailing blanks keeps none when blanks are dropped
    from its front. *)
Lemma rstrip_lstrip (s : string) :
  Text.rstrip s = s -> Text.rstrip (Text.lstrip s) = Text.lstrip s.
Proof.
  induction s as [|d s IH]; [auto|]. intros H. cbn [Text.lstrip].
  destruct (Text.is_space d) eqn:Sp; [|exact H].
  apply IH. cbn [Text.rstrip] in H.
  destruct (Text.rstrip s) as [|e r].
  - rewrite Sp in H. discriminate.
  - now injection H.
Qed.

Lemma lstrip_idem (s : string) : Text.lstrip (Text.lstrip s) = Text.lstrip s.
Proof.
  induction s as [|d s IH]; cbn [Text.lstrip]; [reflexivity|].
  destruct (Text.is_space d) eqn:Sp; [exact IH|]. cbn [Text.lstrip].
  now rewrite Sp.
Qed.

Lemma strip_idem (s : string) : Text.strip (Text.strip s) = Text.strip s.
Proof.
  unfold Text.strip.
  rewrite (rstrip_lstrip (Text.rstrip s) (rstrip_idem s)).
  apply lstrip_idem.
Qed.

Lemma translate_no_cr (s : string) :
  forall pending, Str.mem "013" (Text.translate_newlines pending s) = false.
Proof.
  induction s as [|c s IH]; intros pending; cbn [Text.translate_newlines];
    [reflexivity|].
  destruct (Ascii.eqb c "013") eqn:E; [cbn; apply IH|].
  destruct (Ascii.eqb c "010" && pending); [apply IH|].
  cbn. rewrite E. apply IH.
Qed.

Lemma translate_without_cr (s : string) :
  Str.mem "013" s = false -> Text.translate_newlines false s = s.
Proof.
  induction s as [|c s IH]; cbn; [reflexivity|].
  rewrite orb_false_iff. intros [-> Hs]. rewrite andb_false_r.
  now rewrite (IH Hs).
Qed.

(** Every line is its text, possibly followed by the one line feed. *)
Lemma readlines_shape (s : string) (l : string) :
  List.In l (Text.readlines s) ->
  exists body, Str.mem "010" body = false
               /\ (l = body \/ l = body ++ String "010" EmptyString)
               /\ (forall c, Str.mem c body = true -> Str.mem c s = true).
Proof.
  revert l. induction s as [|c s IH]; intros l; cbn [Text.readlines];
    [intros []|].
  destruct (Ascii.eqb c "010") eqn:E.
  - apply Ascii.eqb_eq in E. subst c. intros [<- | H].
    + exists "". split; [reflexivity|]. split; [now right|]. discriminate.
    + destruct (IH l H) as (body & Hb & Hl & Hc). exists body.
      repeat split; auto. intros x Hx. cbn. rewrite (Hc x Hx). apply orb_true_r.
  - destruct (Text.readlines s) as [|l0 ls].
    + intros [<- | []]. exists (String c ""). cbn. rewrite E.
      repeat split; auto.
      intros x. rewrite orb_false_r. intros ->. reflexivity.
    + intros [<- | H].
      * destruct (IH l0 (or_introl eq_refl)) as (body & Hb & Hl & Hc).
        exists (String c body). cbn. rewrite E, Hb. repeat split.
        -- destruct Hl as [-> | ->]; auto.
        -- intros x. rewrite !orb_true_iff. intros [Hx | Hx]; auto.
      * destruct (IH l (or_intror H)) as (body & Hb & Hl & Hc).
        exists body. repeat split; auto.
        intros x Hx. cbn. rewrite (Hc x Hx). apply orb_true_r.
Qed.

Lemma strip_line (body : string) :
  Text.strip (body ++ String "010" EmptyString) = Text.strip body.
Proof. unfold Text.strip. now rewrite rstrip_app_space. Qed.

Lemma stripped_lines_clean (content : string) (t : string) :
  List.In t (Text.read_stripped_lines content) ->
  Str.mem "010" t = false /\ Str.mem "013" t = false /\ Text.strip t = t.
Proof.
  unfold Text.read_stripped_lines. rewrite in_map_iff.
  intros (l & <- & Hl).
  destruct (readlines_shape _ _ Hl) as (body & Hb & Hshape & Hc).
  assert (E : Text.strip l = Text.strip body)
    by (destruct Hshape as [-> | ->]; [reflexivity | apply strip_line]).
  rewrite E. repeat split.
  - now apply strip_mem.
  - apply strip_mem. apply not_true_iff_false. intros T.
    apply Hc in T. unfold Text.universal_newlines in T.
    now rewrite translate_no_cr in T.
  - apply strip_idem.
Qed.

(** X12 (what a loaded list holds): every entry of a list loaded from a
    file is free of line feeds and carriage returns and has no blank at
    either end, whatever the text of the file. *)
Theorem read_stripped_lines_clean (content : string) (t : string) :
  List.In t (Text.read_stripped_lines content) ->
  Str.mem "010" t = false /\ Str.mem "013" t = false /\ Text.strip t = t.
Proof. apply stripped_lines_clean. Qed.

Lemma read_stripped_lines_clean_witness :
  Str.mem "010" "Mario" = false /\ Str.mem "013" "Mario" = false
  /\ Text.strip "Mario" = "Mario".
Proof.
  apply (read_stripped_lines_clean
           (String "009" ("Mario  " ++ String "013" (String "010" "zelda")))).
  left. reflexivity.
Defined.

Lemma mem_write_lines (c : ascii) (l : list string) :
  Ascii.eqb "010" c = false ->
  (forall t, List.In t l -> Str.mem c t = false) ->
  Str.mem c (Text.write_lines l) = false.
Proof.
  intros Hc. induction l as [|x l IH]; intros H; cbn [Text.write_lines];
    [reflexivity|].
  rewrite !mem_app. cbn [Str.mem]. rewrite Hc, (H x (or_introl eq_refl)).
  cbn. apply IH. intros t Ht. apply H. now right.
Qed.

Lemma readlines_line (t rest : string) :
  Str.mem "010" t = false ->
  Text.readlines (t ++ String "010" EmptyString ++ rest)
  = (t ++ String "010" EmptyString) :: Text.readlines rest.
Proof.
  induction t as [|c t IH]; cbn; [reflexivity|].
  rewrite orb_false_iff. intros [Hc Ht]. rewrite Hc.
  cbn in IH. now rewrite (IH Ht).
Qed.

Lemma written_lines_read_back (l : list string) :
  (forall t, List.In t l ->
     Str.mem "010" t = false /\ Str.mem "013" t = false /\ Text.strip t = t) ->
  Text.read_stripped_lines (Text.write_lines l) = l.
Proof.
  intros H. unfold Text.read_stripped_lines, Text.universal_newlines.
  rewrite translate_without_cr
    by (apply mem_write_lines; [reflexivity | intros t Ht; now apply H]).
  induction l as [|x l IH]; [reflexivity|].
  cbn [Text.write_lines].
  destruct (H x (or_introl eq_refl)) as (Hlf & _ & Hs).
  rewrite (readlines_line _ _ Hlf). cbn [List.map].
  rewrite strip_line, Hs. f_equal. apply IH.
  intros t Ht. apply H. now right.
Qed.

(** X13 (a written list reads back): a list of strings that are free of
    line feeds and carriage returns and have no blank at either end is read
    back, entry for entry, from the text that holds each string followed by
    a line feed. *)
Theorem write_read_round_trip (l : list string) :
  (forall t, List.In t l ->
     Str.mem "010" t = false /\ Str.mem "013" t = false /\ Text.strip t = t) ->
  Text.read_stripped_lines (Text.write_lines l) = l.
Proof. apply written_lines_read_back. Qed.

Lemma write_read_round_trip_witness :
  Text.read_stripped_lines
    (Text.write_lines ["Super Mario Bros. (USA).nes"; ""; "b a"])
  = ["Super Mario Bros. (USA).nes"; ""; "b a"].
Proof.
  apply (write_read_round_trip ["Super Mario Bros. (USA).nes"; ""; "b a"]).
  intros t [<- | [<- | [<- | []]]]; repeat split.
Defined.

(** ** Sorting the records *)

(** The order of the sort: the names compare as Python strings do, code
    point by code point. *)
Definition name_le (r1 r2 : match_record) : Prop :=
  String.leb (name r1) (name r2) = true.

Lemma ltb_false_leb (a b : string) : String.ltb a b = false -> String.leb b a = true.
Proof.
  unfold String.ltb, String.leb. rewrite (String.compare_antisym b a).
  now destruct (String.compare a b).
Qed.

Lemma ltb_true_leb (a b : string) : String.ltb a b = true -> String.leb a b = true.
Proof. unfold String.ltb, String.leb. now destruct (String.compare a b). Qed.

Lemma ltb_irrefl (a : string) : String.ltb a a = false.
Proof.
  unfold String.ltb. destruct (String.compare a a) eqn:C; auto.
  pose proof (String.compare_antisym a a) as A. rewrite C in A. discriminate.
Qed.

Lemma insert_by_name_perm (x : match_record) (l : list match_record) :
  Permutation.Permutation (x :: l) (insert_by_name x l).
Proof.
  induction l as [|y l IH]; cbn [insert_by_name]; [reflexivity|].
  destruct (String.ltb (name y) (name x)); [|reflexivity].
  rewrite Permutation.perm_swap. now apply Permutation.perm_skip.
Qed.

Lemma sort_by_name_perm (l : list match_record) :
  Permutation.Permutation l (sort_by_name l).
Proof.
  induction l as [|x l IH]; cbn; [reflexivity|].
  rewrite <- insert_by_name_perm. now apply Permutation.perm_skip.
Qed.

Lemma insert_by_name_hd (y x : match_record) (l : list match_record) :
  Sorted.HdRel name_le y l -> name_le y x ->
  Sorted.HdRel name_le y (insert_by_name x l).
Proof.
  intros H Hx. destruct l as [|z l]; cbn [insert_by_name].
  - now constructor.
  - destruct (String.ltb (name z) (name x)); constructor; auto.
    now inversion H.
Qed.

Lemma insert_by_name_sorted (x : match_record) (l : list match_record) :
  Sorted.Sorted name_le l -> Sorted.Sorted name_le (insert_by_name x l).
Proof.
  induction 1 as [|y l Hs IH Hd]; cbn [insert_by_name].
  - repeat constructor.
  - destruct (String.ltb (name y) (name x)) eqn:L.
    + constructor; [exact IH|].
      apply insert_by_name_hd; [exact Hd | now apply ltb_true_leb].
    + constructor; [now constructor|]. constructor. now apply ltb_false_leb.
Qed.

Lemma sort_by_name_sorted (l : list match_record) :
  Sorted.Sorted name_le (sort_by_name l).
Proof.
  induction l as [|x l IH]; cbn; [constructor | now apply insert_by_name_sorted].
Qed.

(** The sort is stable: records of one name keep their order. *)
Lemma insert_by_name_stable (k : string) (x : match_record) (l : list match_record) :
  List.filter (fun r => String.eqb (name r) k) (insert_by_name x l)
  = List.filter (fun r => String.eqb (name r) k) (x :: l).
Proof.
  induction l as [|y l IH]; [reflexivity|]. cbn [insert_by_name].
  destruct (String.ltb (name y) (name x)) eqn:L; [|reflexivity].
  cbn [List.filter] in *. rewrite IH.
  destruct (String.eqb_spec (name x) k) as [Ex|Ex]; [|reflexivity].
  destruct (String.eqb_spec (name y) k) as [Ey|Ey]; [|reflexivity].
  rewrite Ex, Ey, ltb_irrefl in L. discriminate.
Qed.

Lemma sort_by_name_stable (k : string) (l : list match_record) :
  List.filter (fun r => String.eqb (name r) k) (sort_by_name l)
  = List.filter (fun r => String.eqb (name r) k) l.
Proof.
  induction l as [|x l IH]; [reflexivity|].
  cbn [sort_by_name fold_right]. fold (sort_by_name l).
  rewrite insert_by_name_stable. cbn [List.filter]. now rewrite IH.
Qed.

(** ** [match_names_to_filenames] *)

Section Caller.

Variables (ext : Scorers) (fs : string -> file)
          (name_list_file filename_list_file : string)
          (library match_method : string) (similarity_threshold : Q)
          (normalization_pattern : Re.regex).

Local Abbreviation call_with sort verbose output_to_file :=
  (match_names_to_filenames ext fs name_list_file filename_list_file
                            library match_method similarity_threshold
                            normalization_pattern sort verbose output_to_file).

(** Whenever the function returns, both files were read and the results
    are those of [string_matching] in filename mode on the loaded lists,
    sorted and written out as asked. *)
Lemma match_names_returns (sort verbose output_to_file : bool) (n n' : nat)
      (matched : list match_record) (unmatched : list string)
      (written : list (string * string)) :
  call_with sort verbose output_to_file n
  = (inr (matched, unmatched, written), n') ->
  exists names filenames m0,
    fs name_list_file = File names
    /\ fs filename_list_file = File filenames
    /\ string_matching ext (Text.read_stripped_lines names)
                       (Text.read_stripped_lines filenames)
                       library match_method similarity_threshold
                       normalization_pattern true n
       = (inr (m0, unmatched), n')
    /\ matched = (if sort then sort_by_name m0 else m0)
    /\ written = (if output_to_file then output_files matched unmatched else []).
Proof.
  unfold match_names_to_filenames, exists_path.
  destruct (fs name_list_file) as [|why1|names];
    destruct (fs filename_list_file) as [|why2|filenames];
    cbn [negb orb]; try discriminate.
  destruct (string_matching _ _ _ _ _ _ _ _ _) as [[e|[m0 u0]] k] eqn:E;
    [discriminate|].
  intros [= <- <- <- <-]. exists names, filenames, m0. repeat split; auto.
Qed.

(** X14 (input errors come first): when either input path does not exist
    the call raises [FileNotFoundError]; when both exist and one cannot be
    read it raises [IOError] with the reason, that of the name list when
    both fail.  In each case no library was called. *)
Theorem match_names_input_errors (sort verbose output_to_file : bool) (n : nat) :
  (fs name_list_file = Missing \/ fs filename_list_file = Missing ->
   match_names_to_filenames ext fs name_list_file filename_list_file
     library match_method similarity_threshold normalization_pattern
     sort verbose output_to_file n
   = (inl (FileNotFoundError "One or more input files do not exist."), n))
  /\ (forall why,
        fs filename_list_file <> Missing ->
        fs name_list_file = Unreadable why ->
        match_names_to_filenames ext fs name_list_file filename_list_file
          library match_method similarity_threshold normalization_pattern
          sort verbose output_to_file n
        = (inl (IOError ("Error reading files: " ++ why)), n))
  /\ (forall names why,
        fs name_list_file = File names ->
        fs filename_list_file = Unreadable why ->
        match_names_to_filenames ext fs name_list_file filename_list_file
          library match_method similarity_threshold normalization_pattern
          sort verbose output_to_file n
        = (inl (IOError ("Error reading files: " ++ why)), n)).
Proof.
  unfold match_names_to_filenames, exists_path. repeat split.
  - intros [H | H]; rewrite H; [reflexivity|].
    now destruct (fs name_list_file).
  - intros why Hf ->. now destruct (fs filename_list_file).
  - intros names why -> ->. reflexivity.
Qed.

(** X15 (the option [sort]): with [sort] the records returned are those
    [string_matching] produced on the loaded lists, rearranged in
    non-decreasing order of name, records of equal name keeping their
    order; the unmatched names are not rearranged. *)
Theorem match_names_sorted (verbose output_to_file : bool) (n n' : nat)
        (matched : list match_record) (unmatched : list string)
        (written : list (string * string)) :
  call_with true verbose output_to_file n
  = (inr (matched, unmatched, written), n') ->
  exists names filenames m0,
    fs name_list_file = File names
    /\ fs filename_list_file = File filenames
    /\ string_matching ext (Text.read_stripped_lines names)
                       (Text.read_stripped_lines filenames)
                       library match_method similarity_threshold
                       normalization_pattern true n
       = (inr (m0, unmatched), n')
    /\ Permutation.Permutation m0 matched
    /\ Sorted.Sorted name_le matched
    /\ (forall k, List.filter (fun r => String.eqb (name r) k) matched
                  = List.filter (fun r => String.eqb (name r) k) m0).
Proof.
  intros E.
  destruct (match_names_returns _ _ _ _ _ _ _ _ E)
    as (names & filenames & m0 & Hn & Hf & Hs & -> & _).
  exists names, filenames, m0. repeat split; auto.
  - apply sort_by_name_perm.
  - apply sort_by_name_sorted.
  - intros k. apply sort_by_name_stable.
Qed.

(** The matched names come from the filename list and the unmatched ones
    from the name list. *)
Lemma results_from_lists (base_list target_list : list string)
      (filename_mode : bool) (n n' : nat)
      (matched : list match_record) (unmatched : list string) :
  string_matching ext base_list target_list library match_method
                  similarity_threshold normalization_pattern filename_mode n
  = (inr (matched, unmatched), n') ->
  (forall r, List.In r matched -> List.In (matched_name r) target_list)
  /\ (forall b, List.In b unmatched -> List.In b base_list).
Proof.
  intros E. split.
  - intros r Hr.
    destruct (string_matching_records _ _ _ _ _ _ _ _ _ _ _ _ _ E Hr)
      as (_ & _ & B & _).
    destruct (select_some _ _ _ B) as (m & (l1 & s & l2 & El & _) & _).
    assert (Hc : List.In (matched_name r) (candidates filename_mode target_list)).
    { apply (scored_candidate ext library match_method normalization_pattern
                              filename_mode (name r) target_list
                              (matched_name r, s)).
      rewrite El. apply in_elt. }
    now apply filter_In in Hc.
  - destruct (string_matching_split _ _ _ _ _ _ _ _ _ _ _ _ E) as (sel & _ & ->).
    intros b Hb. now apply filter_In in Hb.
Qed.

(** X16 (the files written read back as the results): with
    [output_to_file] the call writes three files, in this order; loading
    [matched_list.txt] the way [copy_matched_files] does gives the matched
    names of the returned records, in their order, and loading
    [output_unmatched.txt] gives the unmatched names. *)
Theorem output_files_read_back (sort verbose : bool) (n n' : nat)
        (matched : list match_record) (unmatched : list string)
        (written : list (string * string)) :
  call_with sort verbose true n = (inr (matched, unmatched, written), n') ->
  exists pairs names_only rest,
    written = [("output_matched.txt", pairs); ("matched_list.txt", names_only);
               ("output_unmatched.txt", rest)]
    /\ Text.read_stripped_lines names_only = List.map matched_name matched
    /\ Text.read_stripped_lines rest = unmatched.
Proof.
  intros E.
  destruct (match_names_returns _ _ _ _ _ _ _ _ E)
    as (names & filenames & m0 & Hn & Hf & Hs & Hm & ->).
  destruct (results_from_lists _ _ _ _ _ _ _ Hs) as [Ht Hb].
  do 3 eexists. split; [reflexivity|]. split.
  - apply written_lines_read_back. intros t Ht'.
    apply in_map_iff in Ht' as (r & <- & Hr).
    apply (stripped_lines_clean filenames). apply Ht.
    destruct sort; subst matched; [|assumption].
    eapply Permutation.Permutation_in;
      [apply Permutation.Permutation_sym, sort_by_name_perm | exact Hr].
  - apply written_lines_read_back. intros t Ht'.
    apply (stripped_lines_clean names). now apply Hb.
Qed.

(** X17 (an unrecognised configuration surfaces as [ValueError]): when
    both files are read, the name list is not empty and some line of the
    filename list is a valid filename, an unrecognised library or method
    makes the call raise the error of [get_score]; no library is called. *)
Theorem match_names_invalid_configuration
        (sort verbose output_to_file : bool) (n : nat) (names filenames : string) :
  config_valid library match_method = false ->
  fs name_list_file = File names ->
  fs filename_list_file = File filenames ->
  Text.read_stripped_lines names <> [] ->
  candidates true (Text.read_stripped_lines filenames) <> [] ->
  call_with sort verbose output_to_file n
  = (inl (Propagated (config_error library match_method)), n).
Proof.
  intros V Hn Hf Hne Hc. unfold match_names_to_filenames, exists_path.
  rewrite Hn, Hf. cbn [negb orb].
  rewrite (string_matching_invalid _ _ _ _ _ _ _ _ _ V).
  destruct (Text.read_stripped_lines names); [contradiction|].
  destruct (candidates true _); [contradiction | reflexivity].
Qed.

End Caller.

(** * The partial score of the library [difflib] *)

(** The number of occurrences of a character. *)
Fixpoint occurrences (c : ascii) (s : string) : Z :=
  match s with
  | EmptyString => 0%Z
  | String d s' => ((if Ascii.eqb d c then 1 else 0) + occurrences c s')%Z
  end.

(** The string without its first occurrence of a character. *)
Fixpoint remove_one (c : ascii) (s : string) : string :=
  match s with
  | EmptyString => EmptyString
  | String d s' => if Ascii.eqb d c then s' else String d (remove_one c s')
  end.

(** What [quick_ratio] takes as the number of occurrences still available:
    the entry of [avail], and that of [fullbcount] when there is none. *)
Definition available (fullbcount avail : Difflib.dict) (k : ascii) : Z :=
  match Difflib.get avail k with
  | Some n => n
  | None => Difflib.get_default fullbcount k 0
  end.

Lemma occurrences_nonneg (c : ascii) (s : string) : (0 <= occurrences c s)%Z.
Proof.
  induction s as [|d s IH]; cbn; [lia|]. destruct (Ascii.eqb d c); lia.
Qed.

Lemma get_set (d : Difflib.dict) (k k' : ascii) (v : Z) :
  Difflib.get (Difflib.set d k v) k'
  = if Ascii.eqb k k' then Some v else Difflib.get d k'.
Proof.
  induction d as [|[k0 v0] d IH]; cbn.
  - reflexivity.
  - destruct (Ascii.eqb_spec k0 k) as [->|N]; cbn.
    + now destruct (Ascii.eqb k k').
    + rewrite IH. destruct (Ascii.eqb_spec k k') as [<-|N'].
      * destruct (Ascii.eqb_spec k0 k); [contradiction | reflexivity].
      * reflexivity.
Qed.

Lemma count_elements_spec (b : string) :
  forall (d : Difflib.dict) (k : ascii),
    Difflib.get_default (Difflib.count_elements b d) k 0
    = (Difflib.get_default d k 0 + occurrences k b)%Z.
Proof.
  induction b as [|c b IH]; intros d k; cbn [Difflib.count_elements occurrences].
  - lia.
  - rewrite IH. unfold Difflib.get_default at 1. rewrite get_set.
    destruct (Ascii.eqb_spec c k) as [->|N]; [lia|].
    unfold Difflib.get_default. lia.
Qed.

Lemma available_step (full avail : Difflib.dict) (elt k : ascii) :
  available full (Difflib.set avail elt (available full avail elt - 1)) k
  = if Ascii.eqb elt k then (available full avail elt - 1)%Z
    else available full avail k.
Proof. unfold available at 1. rewrite get_set. now destruct (Ascii.eqb elt k). Qed.

Lemma count_matches_step (elt : ascii) (a : string)
      (full avail : Difflib.dict) (m : Z) :
  Difflib.count_matches (String elt a) full avail m
  = Difflib.count_matches a full
      (Difflib.set avail elt (available full avail elt - 1))
      (if (0 <? available full avail elt)%Z then m + 1 else m)%Z.
Proof. reflexivity. Qed.

Lemma remove_one_spec (c : ascii) (s : string) :
  (0 < occurrences c s)%Z ->
  String.length s = S (String.length (remove_one c s))
  /\ forall k, occurrences k (remove_one c s)
               = (occurrences k s - if Ascii.eqb c k then 1 else 0)%Z.
Proof.
  induction s as [|d s IH]; cbn [occurrences remove_one String.length]; [lia|].
  destruct (Ascii.eqb_spec d c) as [->|N].
  - intros _. split; [reflexivity|]. intros k. destruct (Ascii.eqb c k); lia.
  - intros H. destruct (IH ltac:(lia)) as [L O]. split.
    + cbn. now rewrite L.
    + intros k. cbn [occurrences]. rewrite O. lia.
Qed.

(** The matches counted never exceed what the second string holds. *)
Lemma count_matches_le (a : string) :
  forall (full avail : Difflib.dict) (m : Z) (rest : string),
    (forall k, Z.max 0 (available full avail k) = occurrences k rest) ->
    (m <= Difflib.count_matches a full avail m
       <= m + Z.of_nat (String.length rest))%Z.
Proof.
  induction a as [|elt a IH]; intros full avail m rest R.
  - cbn. lia.
  - rewrite count_matches_step.
    destruct (Z.ltb_spec 0 (available full avail elt)) as [P|P].
    + destruct (remove_one_spec elt rest) as [L O];
        [rewrite <- R; lia|].
      specialize (IH full (Difflib.set avail elt (available full avail elt - 1))
                     (m + 1)%Z (remove_one elt rest)).
      rewrite L. rewrite Nat2Z.inj_succ.
      assert (R' : forall k,
                 Z.max 0 (available full
                            (Difflib.set avail elt (available full avail elt - 1)) k)
                 = occurrences k (remove_one elt rest)).
      { intros k. rewrite available_step, O, <- R.
        destruct (Ascii.eqb_spec elt k) as [<-|N]; lia. }
      specialize (IH R'). lia.
    + specialize (IH full (Difflib.set avail elt (available full avail elt - 1))
                     m rest).
      assert (R' : forall k,
                 Z.max 0 (available full
                            (Difflib.set avail elt (available full avail elt - 1)) k)
                 = occurrences k rest).
      { intros k. rewrite available_step.
        destruct (Ascii.eqb_spec elt k) as [<-|N]; [|apply R].
        rewrite <- R. lia. }
      specialize (IH R'). lia.
Qed.

Lemma count_matches_length (a : string) :
  forall (full avail : Difflib.dict) (m : Z),
    (m <= Difflib.count_matches a full avail m
       <= m + Z.of_nat (String.length a))%Z.
Proof.
  induction a as [|elt a IH]; intros full avail m.
  - cbn. lia.
  - rewrite count_matches_step. cbn [String.length]. rewrite Nat2Z.inj_succ.
    specialize (IH full (Difflib.set avail elt (available full avail elt - 1))
                   (if (0 <? available full avail elt)%Z then m + 1 else m)%Z).
    destruct (0 <? available full avail elt)%Z; lia.
Qed.

(** Every character of the first string is matched when the second
    holds at least as many of each. *)
Lemma count_matches_all (a : string) :
  forall (full avail : Difflib.dict) (m : Z),
    (forall k, (occurrences k a <= available full avail k)%Z) ->
    Difflib.count_matches a full avail m = (m + Z.of_nat (String.length a))%Z.
Proof.
  induction a as [|elt a IH]; intros full avail m R.
  - cbn. lia.
  - rewrite count_matches_step. cbn [String.length]. rewrite Nat2Z.inj_succ.
    pose proof (R elt) as Re. cbn [occurrences] in Re.
    rewrite Ascii.eqb_refl in Re. pose proof (occurrences_nonneg elt a).
    destruct (Z.ltb_spec 0 (available full avail elt)) as [P|P]; [|lia].
    rewrite IH; [lia|].
    intros k. rewrite available_step. specialize (R k). cbn [occurrences] in R.
    destruct (Ascii.eqb_spec elt k) as [E|N]; [subst k|]; lia.
Qed.

Lemma available_initial (b : string) (k : ascii) :
  available (Difflib.count_elements b []) [] k = occurrences k b.
Proof.
  unfold available. cbn [Difflib.get]. rewrite count_elements_spec.
  reflexivity.
Qed.

(** ** The score in floating point

    [get_score] returns [quick_ratio() * 100], and [quick_ratio] returns
    [2.0 * matches / length], or [1.0] when [length] is zero.  In the code
    each conversion of an integer and each of these operations returns the
    rounding of the exact result to a binary floating-point number; [rnd]
    stands for that rounding. *)
Definition rounded_partial_score (rnd : Q -> Q) (a b : string) : Q :=
  let matches := Difflib.count_matches a (Difflib.count_elements b []) [] 0%Z in
  let length := (Z.of_nat (String.length a) + Z.of_nat (String.length b))%Z in
  let ratio :=
    if (length =? 0)%Z then 1%Q
    else rnd (rnd (2 * rnd (inject_Z matches)) / rnd (inject_Z length))%Q in
  rnd (ratio * rnd 100)%Q.

(** A rounding for concrete runs: down to the next multiple of 1/1024. *)
Definition round_down_10 (q : Q) : Q :=
  (inject_Z (Qfloor (q * 1024)) / 1024)%Q.

(** Without rounding this is the score of the model of [get_score]. *)
Lemma rounded_partial_score_exact (ext : Scorers) (a b : string) (n : nat) :
  get_score ext "difflib" "partial" a b n
  = (inr (rounded_partial_score (fun q => q) a b), S n).
Proof. reflexivity. Qed.

Section Rounding.

(** What is assumed of the rounding: it is monotone, and it leaves the
    integers of magnitude up to 2^53 as they are. *)
Variable rnd : Q -> Q.
Hypothesis rnd_monotone : forall x y, (x <= y)%Q -> (rnd x <= rnd y)%Q.
Hypothesis rnd_integer :
  forall z, (Z.abs z <= 2 ^ 53)%Z -> (rnd (inject_Z z) == inject_Z z)%Q.

#[local] Instance rnd_compat : Proper (Qeq ==> Qeq) rnd.
Proof.
  intros x y E. apply Qle_antisym; apply rnd_monotone; rewrite E; apply Qle_refl.
Qed.

Lemma rnd_hundred : (rnd 100 == 100)%Q.
Proof. apply (rnd_integer 100). vm_compute. discriminate. Qed.

(** The rounded ratio of a match count that is at most half the length. *)
Lemma rounded_ratio_bounds (matches length : Z) :
  (0 <= matches)%Z -> (2 * matches <= length)%Z -> (0 < length <= 2 ^ 52)%Z ->
  (0 <= rnd (rnd (2 * rnd (inject_Z matches)) / rnd (inject_Z length)) <= 1)%Q
  /\ ((2 * matches = length)%Z ->
      (rnd (rnd (2 * rnd (inject_Z matches)) / rnd (inject_Z length)) == 1)%Q).
Proof.
  intros H0 H2 [Hl Hu].
  assert (P : (2 ^ 52 < 2 ^ 53)%Z) by (vm_compute; reflexivity).
  rewrite (rnd_integer matches) by lia.
  assert (E2 : (2 * inject_Z matches == inject_Z (2 * matches))%Q)
    by (now rewrite inject_Z_mult).
  rewrite E2, (rnd_integer (2 * matches)), (rnd_integer length) by lia.
  assert (Hpos : (0 < inject_Z length)%Q)
    by (change 0%Q with (inject_Z 0); rewrite <- Zlt_Qlt; lia).
  assert (R0 : (rnd 0 == 0)%Q) by (apply (rnd_integer 0); vm_compute; discriminate).
  assert (R1 : (rnd 1 == 1)%Q) by (apply (rnd_integer 1); vm_compute; discriminate).
  split; [split|].
  - apply Qle_trans with (rnd 0); [rewrite R0; apply Qle_refl|].
    apply rnd_monotone.
    apply Qle_shift_div_l; [exact Hpos|]. rewrite Qmult_0_l.
    change 0%Q with (inject_Z 0). rewrite <- Zle_Qle. lia.
  - apply Qle_trans with (rnd 1); [|rewrite R1; apply Qle_refl].
    apply rnd_monotone.
    apply Qle_shift_div_r; [exact Hpos|]. rewrite Qmult_1_l.
    rewrite <- Zle_Qle. lia.
  - intros ->. apply Qeq_trans with (rnd 1); [|exact R1].
    apply rnd_compat.
    field. intros Z0. rewrite Z0 in Hpos. now apply (Qlt_irrefl 0).
Qed.

(** X18 (the partial score of [difflib] is a percentage, and 100 on equal
    strings): for the library [difflib] and the method [partial], the score
    computed with rounded arithmetic lies between 0 and 100 for every pair
    of strings, empty ones included, and is 100 when the two strings are
    equal, for every rounding that is monotone and exact on the integers up
    to 2^53, and strings of total length up to 2^52. *)
Theorem difflib_partial_score_range (a b : string) :
  (Z.of_nat (String.length a) + Z.of_nat (String.length b) <= 2 ^ 52)%Z ->
  (0 <= rounded_partial_score rnd a b <= 100)%Q
  /\ (a = b -> (rounded_partial_score rnd a b == 100)%Q).
Proof.
  intros Hlen. unfold rounded_partial_score.
  pose proof (count_matches_le a (Difflib.count_elements b []) [] 0%Z b) as Hb.
  pose proof (count_matches_length a (Difflib.count_elements b []) [] 0%Z) as Ha.
  assert (R : forall k,
             Z.max 0 (available (Difflib.count_elements b []) [] k)
             = occurrences k b).
  { intros k. rewrite available_initial. pose proof (occurrences_nonneg k b). lia. }
  specialize (Hb R). clear R.
  set (m := Difflib.count_matches a (Difflib.count_elements b []) [] 0%Z) in *.
  set (len := (Z.of_nat (String.length a) + Z.of_nat (String.length b))%Z) in *.
  assert (R0 : (rnd 0 == 0)%Q) by (apply (rnd_integer 0); vm_compute; discriminate).
  assert (Range : forall ratio, (0 <= ratio <= 1)%Q ->
                    (0 <= rnd (ratio * rnd 100) <= 100)%Q).
  { intros ratio [L0 L1]. rewrite rnd_hundred. split.
    - apply Qle_trans with (rnd 0); [rewrite R0; apply Qle_refl|].
      apply rnd_monotone.
      apply Qmult_le_0_compat; [exact L0 | discriminate].
    - apply Qle_trans with (rnd 100); [|rewrite rnd_hundred; apply Qle_refl].
      apply rnd_monotone.
      apply (Qmult_le_compat_r _ _ 100) in L1; [|discriminate].
      now rewrite Qmult_1_l in L1. }
  assert (Full : forall ratio, (ratio == 1)%Q -> (rnd (ratio * rnd 100) == 100)%Q).
  { intros ratio E. rewrite rnd_hundred, E, Qmult_1_l. apply rnd_hundred. }
  destruct (Z.eqb_spec len 0) as [Z0|NZ].
  - split; [apply Range; split; discriminate | intros _; now apply Full].
  - destruct (rounded_ratio_bounds m len) as [B F]; try lia.
    split; [now apply Range|].
    intros <-. apply Full, F. subst m len.
    rewrite count_matches_all by (intros k; rewrite available_initial; lia).
    lia.
Qed.

End Rounding.

Lemma round_down_10_monotone (x y : Q) :
  (x <= y)%Q -> (round_down_10 x <= round_down_10 y)%Q.
Proof.
  intros H. unfold round_down_10, Qdiv.
  apply Qmult_le_compat_r; [|discriminate].
  rewrite <- Zle_Qle. apply Qfloor_resp_le.
  apply Qmult_le_compat_r; [exact H | discriminate].
Qed.

Lemma round_down_10_integer (z : Z) :
  (round_down_10 (inject_Z z) == inject_Z z)%Q.
Proof.
  unfold round_down_10.
  assert (E : (inject_Z z * 1024 == inject_Z (z * 1024))%Q)
    by (now rewrite inject_Z_mult).
  rewrite E, Qfloor_Z, inject_Z_mult. field.
Qed.

Lemma difflib_partial_score_range_witness :
  (0 <= rounded_partial_score round_down_10 "abba" "abba" <= 100)%Q
  /\ ("abba" = "abba" ->
      (rounded_partial_score round_down_10 "abba" "abba" == 100)%Q).
Proof.
  apply (difflib_partial_score_range round_down_10 round_down_10_monotone
           (fun z _ => round_down_10_integer z) "abba" "abba").
  vm_compute. discriminate.
Defined.

(** * Concrete runs *)

(** Two files for the runs below: three names, one with blanks around it
    and a carriage return, and three candidate lines, one of them not a
    valid filename. *)
Definition example_fs (path : string) : file :=
  if String.eqb path "names.txt"
  then File ("zelda" ++ String "010" ("  Mario " ++ String "013" (String "010" "aaa")))
  else if String.eqb path "files.txt"
  then File ("mario.nes" ++ String "010" ("AAA.zip" ++ String "013" ("a<b" ++ String "010" "")))
  else if String.eqb path "folder"
  then Unreadable "[Errno 21] Is a directory: 'folder'"
  else Missing.

Lemma string_matching_app_witness :
  exists m1 u1 n1 m2 u2 n2,
    string_matching equality_scorers ["Mario"] ["mario.nes"] "rapidfuzz" "exact"
                    80 default_pattern true 0 = (inr (m1, u1), n1)
    /\ string_matching equality_scorers ["zelda"] ["mario.nes"] "rapidfuzz" "exact"
                       80 default_pattern true n1 = (inr (m2, u2), n2)
    /\ string_matching equality_scorers (["Mario"] ++ ["zelda"])%list ["mario.nes"]
                       "rapidfuzz" "exact" 80 default_pattern true 0
       = (inr ((m1 ++ m2)%list, (u1 ++ u2)%list), n2).
Proof.
  exact (string_matching_app equality_scorers "rapidfuzz" "exact" default_pattern
           true 80 ["Mario"] ["zelda"] ["mario.nes"] 0 eq_refl).
Defined.

Lemma threshold_monotone_witness :
  (forall r, List.In r [] ->
             List.In r [{| name := "ab"; matched_name := "b.nes" |}])
  /\ (forall b, List.In b [] -> List.In b ["ab"]).
Proof.
  refine (threshold_monotone equality_scorers "difflib" "partial" default_pattern
            true 50 80 ["ab"] ["b.nes"] 0 1 1
            [{| name := "ab"; matched_name := "b.nes" |}] [] [] ["ab"]
            eq_refl _ eq_refl eq_refl).
  discriminate.
Defined.

Lemma same_normal_form_same_match_witness :
  (forall t, List.In {| name := "Mario"; matched_name := t |}
                     [{| name := "Mario"; matched_name := "mario.nes" |};
                      {| name := "mario!"; matched_name := "mario.nes" |}]
             <-> List.In {| name := "mario!"; matched_name := t |}
                         [{| name := "Mario"; matched_name := "mario.nes" |};
                          {| name := "mario!"; matched_name := "mario.nes" |}])
  /\ (List.In "Mario" [] <-> List.In "mario!" []).
Proof.
  refine (same_normal_form_same_match equality_scorers "thefuzz" "exact"
            default_pattern true 80 ["Mario"; "mario!"] ["mario.nes"] 0 2
            [{| name := "Mario"; matched_name := "mario.nes" |};
             {| name := "mario!"; matched_name := "mario.nes" |}] []
            "Mario" "mario!" eq_refl _ _ eq_refl).
  - now left.
  - right. now left.
Defined.

Lemma string_matching_keeps_order_witness :
  exists sel : string -> bool,
    List.map name [{| name := "Mario"; matched_name := "mario.nes" |};
                   {| name := "aaa"; matched_name := "AAA.zip" |}]
    = List.filter sel ["zelda"; "Mario"; "aaa"]
    /\ ["zelda"] = List.filter (fun b => negb (sel b)) ["zelda"; "Mario"; "aaa"].
Proof.
  exact (string_matching_keeps_order equality_scorers "rapidfuzz" "exact"
           default_pattern true 80 ["zelda"; "Mario"; "aaa"]
           ["mario.nes"; "AAA.zip"; "a<b"] 0 6
           [{| name := "Mario"; matched_name := "mario.nes" |};
            {| name := "aaa"; matched_name := "AAA.zip" |}] ["zelda"] eq_refl).
Defined.

Lemma match_names_sorted_witness :
  Sorted.Sorted name_le [{| name := "Mario"; matched_name := "mario.nes" |};
                         {| name := "aaa"; matched_name := "AAA.zip" |}].
Proof.
  destruct (match_names_sorted equality_scorers example_fs "names.txt" "files.txt"
              "rapidfuzz" "exact" 80 default_pattern false false 0 6
              [{| name := "Mario"; matched_name := "mario.nes" |};
               {| name := "aaa"; matched_name := "AAA.zip" |}] ["zelda"] []
              eq_refl)
    as (_ & _ & _ & _ & _ & _ & _ & S & _).
  exact S.
Defined.

Lemma output_files_read_back_witness :
  exists pairs names_only rest,
    output_files [{| name := "Mario"; matched_name := "mario.nes" |};
                  {| name := "aaa"; matched_name := "AAA.zip" |}] ["zelda"]
    = [("output_matched.txt", pairs); ("matched_list.txt", names_only);
       ("output_unmatched.txt", rest)]
    /\ Text.read_stripped_lines names_only
       = List.map matched_name
           [{| name := "Mario"; matched_name := "mario.nes" |};
            {| name := "aaa"; matched_name := "AAA.zip" |}]
    /\ Text.read_stripped_lines rest = ["zelda"].
Proof.
  exact (output_files_read_back equality_scorers example_fs "names.txt" "files.txt"
           "rapidfuzz" "exact" 80 default_pattern true false 0 6
           [{| name := "Mario"; matched_name := "mario.nes" |};
            {| name := "aaa"; matched_name := "AAA.zip" |}] ["zelda"]
           (output_files [{| name := "Mario"; matched_name := "mario.nes" |};
                          {| name := "aaa"; matched_name := "AAA.zip" |}] ["zelda"])
           eq_refl).
Defined.

Lemma match_names_invalid_configuration_witness :
  match_names_to_filenames equality_scorers example_fs "names.txt" "files.txt"
                           "rapidfuz" "exact" 80 default_pattern true true true 0
  = (inl (Propagated (library_error "rapidfuz")), 0).
Proof.
  refine (match_names_invalid_configuration equality_scorers example_fs
            "names.txt" "files.txt" "rapidfuz" "exact" 80 default_pattern
            true true true 0 _ _ eq_refl eq_refl eq_refl _ _); discriminate.
Defined.
